(** * CHECKLOCKTIMEVERIFY demos: micropayment channel and hodl

    A shallow embedding of [micropayment-channel.py] and of the spending
    path of [hodl.py], and the properties of the channel state machines
    and of the fee computation that are checked against them.

    Conventions of the embedding.
    - Python integers are [Z].  Python floats (the fee computation of
      [hodl.py] only) are IEEE-754 binary64 numbers, through the
      executable specification [SpecFloat] of the core library.
    - The transaction types of python-bitcoinlib ([COutPoint], [CTxIn],
      [CTxOut], [CTransaction]) are records.  Where the source calls a
      constructor that checks its arguments, the embedding calls a
      function that can raise.  A script is the list of the items it is
      built from and iterates to.
    - A method is a computation in a state-and-exception monad: it takes
      the object, returns a value or raises, and leaves the object in the
      state it had reached.  Attribute reads and pure helpers are plain
      functions.
    - Hashing and ECDSA signing are an interface ([SigningService]).
      Signing draws a fresh nonce at every call; the nonce a call draws
      is an explicit argument of the method that signs. *)

From Stdlib Require Import ZArith List String Bool Lia.
From Stdlib Require Import Strings.Byte.
From Stdlib Require Floats.SpecFloat.
From stdpp Require Import base list.

Import ListNotations.
Open Scope Z_scope.
Set Warnings "-register-all".

(** ** Python values *)

Definition bytes := list byte.

(** The exceptions the modelled code can raise; [StructError] is
    [struct.error]. *)
Inductive exn : Type :=
| ValueError (msg : string)
| IndexError
| AttributeError
| OverflowError
| StructError.

Inductive result (A : Type) : Type :=
| Ok (a : A)
| Raise (e : exn).
Arguments Ok {A} a.
Arguments Raise {A} e.

(** Sequencing of fallible steps outside any object. *)
Definition and_then {A B} (r : result A) (k : A -> result B) : result B :=
  match r with
  | Ok a => k a
  | Raise e => Raise e
  end.

(** [xs[i]] for a non-negative literal index [i]. *)
Definition index {A : Type} (xs : list A) (i : nat) : result A :=
  match xs !! i with
  | Some x => Ok x
  | None => Raise IndexError
  end.

(** ** State and exception monad

    [M S A]: a method of an object of type [S] returning an [A].  An
    exception does not roll the object back. *)
Module Meth.

Definition M (S A : Type) : Type := S -> result A * S.

Definition ret {S A} (a : A) : M S A := fun s => (Ok a, s).

Definition bind {S A B} (c : M S A) (k : A -> M S B) : M S B :=
  fun s =>
    match c s with
    | (Ok a, s') => k a s'
    | (Raise e, s') => (Raise e, s')
    end.

Definition raise {S A} (e : exn) : M S A := fun s => (Raise e, s).

Definition get {S} : M S S := fun s => (Ok s, s).

Definition modify {S} (f : S -> S) : M S unit := fun s => (Ok tt, f s).

(** A pure, fallible computation run inside a method. *)
Definition lift {S A} (r : result A) : M S A := fun s => (r, s).

End Meth.
Import Meth.

Declare Scope meth_scope.
Delimit Scope meth_scope with meth.
Notation "'do' x <- c ; k" := (bind c (fun x => k))
  (at level 10, x name, c at level 100, k at level 200,
   format "'[v' 'do'  x  <-  c ; '/' k ']'") : meth_scope.
Notation "'run' c ; k" := (bind c (fun _ => k))
  (at level 10, c at level 100, k at level 200,
   format "'[v' 'run'  c ; '/' k ']'") : meth_scope.
Open Scope meth_scope.

(** ** Scripts and transactions (python-bitcoinlib, at its interface) *)
Module bitcoin.

Inductive CScriptOp : Type :=
| OP_IF | OP_ELSE | OP_ENDIF
| OP_NOP2 | OP_DROP | OP_2DROP
| OP_CHECKSIG | OP_CHECKSIGVERIFY.

(** The items [CScript([...])] is built from: an opcode, an integer, a
    byte string pushed as data, or another script pushed as data. *)
Inductive ScriptItem : Type :=
| SOp (op : CScriptOp)
| SInt (n : Z)
| SData (b : bytes)
| SScript (s : list ScriptItem).

Definition CScript := list ScriptItem.

Record COutPoint := mkCOutPoint { op_hash : bytes; op_n : Z }.

Record CTxIn := mkCTxIn {
  prevout : COutPoint;
  scriptSig : CScript;
  nSequence : Z }.

Record CTxOut := mkCTxOut {
  nValue : Z;
  scriptPubKey : CScript }.

Record CTransaction := mkCTransaction {
  vin : list CTxIn;
  vout : list CTxOut;
  nLockTime : Z;
  nVersion : Z }.

(** The ranges of the fixed-width fields of a serialized transaction:
    [struct.pack] with [<I], [<i] and [<q]. *)
Definition is_uint32 (n : Z) : bool := (0 <=? n) && (n <=? 0xFFFFFFFF).
Definition is_int32 (n : Z) : bool :=
  (- 0x80000000 <=? n) && (n <=? 0x7FFFFFFF).
Definition is_int64 (n : Z) : bool :=
  (- 0x8000000000000000 <=? n) && (n <=? 0x7FFFFFFFFFFFFFFF).

(** [CTxIn(prevout, scriptSig, nSequence)]: the constructor refuses a
    sequence number outside 0 .. 0xffffffff. *)
Definition new_CTxIn (prevout : COutPoint) (scriptSig : CScript)
    (nSequence : Z) : result CTxIn :=
  if is_uint32 nSequence
  then Ok (mkCTxIn prevout scriptSig nSequence)
  else Raise (ValueError "CTxIn: nSequence out of range").

(** [CTransaction(vin, vout, nLockTime, nVersion)]: the constructor
    refuses a lock-time outside 0 .. 0xffffffff. *)
Definition new_CTransaction (vin : list CTxIn) (vout : list CTxOut)
    (nLockTime nVersion : Z) : result CTransaction :=
  if is_uint32 nLockTime
  then Ok (mkCTransaction vin vout nLockTime nVersion)
  else Raise (ValueError "CTransaction: nLockTime out of range").

(** Whether [serialize()] can pack every fixed-width field: the version
    as int32, each outpoint index and sequence number as uint32, each
    output value as int64, the lock-time as uint32.  Scripts and
    outpoint hashes are written as they are. *)
Definition serializable_txin (txin : CTxIn) : bool :=
  is_uint32 (op_n (prevout txin)) && is_uint32 (nSequence txin).

Definition serializable_txout (txout : CTxOut) : bool :=
  is_int64 (nValue txout).

Definition serializable (tx : CTransaction) : bool :=
  is_int32 (nVersion tx) &&
  forallb serializable_txin (vin tx) &&
  forallb serializable_txout (vout tx) &&
  is_uint32 (nLockTime tx).

Definition SIGHASH_ALL : Z := 1.
Definition SIGHASH_ANYONECANPAY : Z := 0x80.

(** The transaction [RawSignatureHash] serializes: with ANYONECANPAY
    only the input that is signed is kept. *)
Definition hashed_part (txTo : CTransaction) (inIdx : nat) (hashtype : Z)
    : CTransaction :=
  mkCTransaction
    (if Z.testbit hashtype 7 then take 1 (drop inIdx (vin txTo))
     else vin txTo)
    (vout txTo) (nLockTime txTo) (nVersion txTo).

(** [bytes([n])] for a hash type, which is below 256. *)
Definition hashtype_byte (n : Z) : bytes :=
  match Byte.of_N (Z.to_N n) with
  | Some b => [b]
  | None => []
  end.

(** The external signing machinery: the digest [RawSignatureHash]
    computes for an input that exists, [seckey.sign] and [seckey.pub].
    [ecdsa_sign seckey digest nonce] is the signature [seckey.sign(digest)]
    returns when it draws [nonce]. *)
Class SigningService := {
  sighash_digest : CScript -> CTransaction -> nat -> Z -> bytes;
  ecdsa_sign : bytes -> bytes -> bytes -> bytes;
  pubkey_of : bytes -> bytes }.

Section Library.
Context `{SigningService}.

(** [SignatureHash(script, txTo, inIdx, hashtype)] for the hash types
    used here (ALL, with or without ANYONECANPAY): a [ValueError] when
    [inIdx] is not an input of [txTo]; [struct.error] when the
    transaction cannot be serialized; the digest otherwise. *)
Definition SignatureHash (script : CScript) (txTo : CTransaction)
    (inIdx : nat) (hashtype : Z) : result bytes :=
  if (inIdx <? length (vin txTo))%nat
  then
    if serializable (hashed_part txTo inIdx hashtype)
    then Ok (sighash_digest script txTo inIdx hashtype)
    else Raise StructError
  else Raise (ValueError "inIdx out of range").

End Library.
End bitcoin.
Import bitcoin.

(** ** micropayment-channel.py *)

(** *** class MicropaymentParams *)
Module MicropaymentParams.

Record t := mk {
  sender_deposit_scriptPubKey : CScript;
  receiver_deposit_scriptPubKey : CScript;
  receiver_dest_scriptPubKey : CScript;
  expiry_nlocktime : Z;
  deposit_outpoint : COutPoint }.

(** IF <recv_pub> CHECKSIG ELSE <expiry> 1 NOP2 2DROP ENDIF
    <send_pub> CHECKSIG *)
Definition deposit_redeemScript (self : t) : CScript :=
  [SOp OP_IF] ++
      receiver_deposit_scriptPubKey self ++
  [SOp OP_ELSE;
      SInt (expiry_nlocktime self); SInt 1; SOp OP_NOP2; SOp OP_2DROP;
   SOp OP_ENDIF] ++
  sender_deposit_scriptPubKey self.

(** The defaults of [make_payment_tx]'s keyword arguments. *)
Definition default_txin_scriptSig : CScript := [].
Definition default_nSequence : Z := 0xFFFFFFFF.

Definition make_payment_tx (self : t)
    (change_nValue dest_nValue : Z)
    (sender_change_scriptPubKey : CScript)
    (txin_scriptSig : CScript)
    (nSequence : Z) : result CTransaction :=
  and_then (new_CTxIn (deposit_outpoint self) txin_scriptSig nSequence)
    (fun txin =>
  new_CTransaction
    [txin]
    [mkCTxOut change_nValue sender_change_scriptPubKey;
     mkCTxOut dest_nValue (receiver_dest_scriptPubKey self)]
    0
    1).

End MicropaymentParams.

(** *** class MicropaymentChannel: the state common to both sides *)
Module MicropaymentChannel.

Record t := mk {
  params : MicropaymentParams.t;
  deposit_nValue : Z;
  last_payment_tx : option CTransaction }.

Definition set_last_payment_tx (tx : option CTransaction) (self : t) : t :=
  mk (params self) (deposit_nValue self) tx.

(** [payment_tx.vout[1].nValue] *)
Definition calc_payment_value (payment_tx : CTransaction) : result Z :=
  match index (vout payment_tx) 1 with
  | Ok txout => Ok (nValue txout)
  | Raise e => Raise e
  end.

(** The property [total_sent]. *)
Definition total_sent (self : t) : result Z :=
  match last_payment_tx self with
  | None => Ok 0
  | Some tx => calc_payment_value tx
  end.

End MicropaymentChannel.

(** *** class ReceiverMicropaymentChannel *)
Module ReceiverMicropaymentChannel.
Import MicropaymentChannel.

Record t := mk {
  base :> MicropaymentChannel.t;
  receiver_seckey : bytes }.

(** [__init__]: no payment yet. *)
Definition init (params : MicropaymentParams.t) (receiver_seckey : bytes)
    (deposit_nValue : Z) : t :=
  mk (MicropaymentChannel.mk params deposit_nValue None) receiver_seckey.

(** The receiver with [tx] as its [last_payment_tx]. *)
Definition storing (tx : CTransaction) (self : t) : t :=
  mk (set_last_payment_tx (Some tx) self) (receiver_seckey self).

(** [self.last_payment_tx = tx] *)
Definition assign_last_payment_tx (tx : CTransaction) : M t unit :=
  modify (storing tx).

(** The body is a docstring and a FIXME comment: the method returns
    [None] for every argument. *)
Definition validate_payment_tx (payment_tx : CTransaction) : M t unit :=
  ret tt.

Definition recv_payment_tx (payment_tx : CTransaction) : M t Z :=
  run validate_payment_tx payment_tx;
  do payment_value <- lift (calc_payment_value payment_tx);
  do self <- @get t;
  match last_payment_tx self with
  | None =>
      run assign_last_payment_tx payment_tx;
      ret payment_value
  | Some last =>
      do last_value <- lift (calc_payment_value last);
      let delta_nValue := payment_value - last_value in
      run (if 0 <? delta_nValue
           then assign_last_payment_tx payment_tx
           else ret tt);
      ret delta_nValue
  end.

Section WithSigning.
Context `{SigningService}.

(** With no payment stored, [self.last_payment_tx] is [None] and its
    first use ([txTo.vin] inside [SignatureHash]) raises
    [AttributeError].  [nonce] is the nonce [receiver_seckey.sign]
    draws. *)
Definition make_finalization_tx (nonce : bytes) : M t CTransaction :=
  do self <- @get t;
  match last_payment_tx self with
  | None => raise AttributeError
  | Some last =>
      let redeemScript :=
        MicropaymentParams.deposit_redeemScript (params self) in
      do sighash <- lift (SignatureHash redeemScript last 0 SIGHASH_ALL);
      let sig := ecdsa_sign (receiver_seckey self) sighash nonce
                 ++ hashtype_byte SIGHASH_ALL in
      do txin0 <- lift (index (vin last) 0);
      let signed_scriptSig :=
        scriptSig txin0 ++ [SData sig; SInt 1; SScript redeemScript] in
      do signed_txin <- lift (new_CTxIn (prevout txin0) signed_scriptSig
                                (nSequence txin0));
      lift (new_CTransaction
              [signed_txin]
              (vout last)
              (nLockTime last)
              (nVersion last))
  end.

End WithSigning.
End ReceiverMicropaymentChannel.

(** *** class SenderMicropaymentChannel *)
Module SenderMicropaymentChannel.
Import MicropaymentChannel.

Record t := mk {
  base :> MicropaymentChannel.t;
  sender_seckey : bytes;
  sender_change_scriptPubKey : CScript }.

(** [__init__]: no payment yet. *)
Definition init (params : MicropaymentParams.t) (sender_seckey : bytes)
    (sender_change_scriptPubKey : CScript) (deposit_nValue : Z) : t :=
  mk (MicropaymentChannel.mk params deposit_nValue None)
     sender_seckey sender_change_scriptPubKey.

(** The sender with [tx] as its [last_payment_tx]. *)
Definition storing (tx : CTransaction) (self : t) : t :=
  mk (set_last_payment_tx (Some tx) self)
     (sender_seckey self) (sender_change_scriptPubKey self).

(** [self.last_payment_tx = tx] *)
Definition assign_last_payment_tx (tx : CTransaction) : M t unit :=
  modify (storing tx).

Definition NegativeAmount : exn :=
  ValueError "Amount to send must be non-negative".
Definition InsufficientFunds : exn :=
  ValueError "Amount greather than unspent deposit".

Section WithSigning.
Context `{SigningService}.

(** [nonce] is the nonce [sender_seckey.sign] draws. *)
Definition make_payment_tx (delta_amount fee : Z) (nonce : bytes)
    : M t CTransaction :=
  if delta_amount <? 0 then raise NegativeAmount else
  do self <- @get t;
  do total <- lift (total_sent self);
  let change_nValue := deposit_nValue self - total - delta_amount - fee in
  if change_nValue <? 0 then raise InsufficientFunds else
  let redeemScript :=
    MicropaymentParams.deposit_redeemScript (params self) in
  do unsigned_tx <-
    lift (MicropaymentParams.make_payment_tx (params self)
            change_nValue
            (deposit_nValue self - change_nValue - fee)
            (sender_change_scriptPubKey self)
            MicropaymentParams.default_txin_scriptSig
            MicropaymentParams.default_nSequence);
  do sighash <- lift (SignatureHash redeemScript unsigned_tx 0
                        (Z.lor SIGHASH_ANYONECANPAY SIGHASH_ALL));
  let sig := ecdsa_sign (sender_seckey self) sighash nonce
             ++ hashtype_byte (Z.lor SIGHASH_ANYONECANPAY SIGHASH_ALL) in
  do signed_tx <-
    lift (MicropaymentParams.make_payment_tx (params self)
            change_nValue
            (deposit_nValue self - change_nValue - fee)
            (sender_change_scriptPubKey self)
            [SData sig]
            MicropaymentParams.default_nSequence);
  ret signed_tx.

Definition send_payment (delta_amount fee : Z) (nonce : bytes)
    : M t CTransaction :=
  do payment_tx <- make_payment_tx delta_amount fee nonce;
  run assign_last_payment_tx payment_tx;
  ret payment_tx.

Definition make_refund_tx (fee : Z) (nonce : bytes) : M t CTransaction :=
  do self <- @get t;
  let redeemScript :=
    MicropaymentParams.deposit_redeemScript (params self) in
  do unsigned_txin <-
    lift (new_CTxIn (MicropaymentParams.deposit_outpoint (params self))
            [] 0);
  do unsigned_tx <-
    lift (new_CTransaction
            [unsigned_txin]
            [mkCTxOut (deposit_nValue self - fee)
                      (sender_change_scriptPubKey self)]
            (MicropaymentParams.expiry_nlocktime (params self))
            1);
  do sighash <- lift (SignatureHash redeemScript unsigned_tx 0 SIGHASH_ALL);
  let sig := ecdsa_sign (sender_seckey self) sighash nonce
             ++ hashtype_byte SIGHASH_ALL in
  let signed_scriptSig := [SData sig; SInt 0; SScript redeemScript] in
  do txin0 <- lift (index (vin unsigned_tx) 0);
  do signed_txin <- lift (new_CTxIn (prevout txin0) signed_scriptSig 0);
  lift (new_CTransaction
          [signed_txin]
          (vout unsigned_tx)
          (nLockTime unsigned_tx)
          1).

End WithSigning.
End SenderMicropaymentChannel.
(** ** Python floats

    A [float] is a binary64 number; the operations round to nearest,
    ties to even. *)
Module PyFloat.
Import SpecFloat.

Definition prec : Z := 53.
Definition emax : Z := 1024.

Definition float := spec_float.

(** [float(n)] for an [int] *)
Definition of_int (n : Z) : float := binary_normalize prec emax n 0 false.

(** [a / b] on two [int]s that are floats exactly (below [2^53]) *)
Definition truediv (a b : Z) : float :=
  SFdiv prec emax (of_int a) (of_int b).

(** [x * n] for a float and an [int] *)
Definition mul_int (x : float) (n : Z) : float :=
  SFmul prec emax x (of_int n).

(** [int(x)]: truncation towards zero *)
Definition to_int (x : float) : result Z :=
  match x with
  | S754_zero _ => Ok 0
  | S754_finite s m e =>
      let a := if 0 <=? e then Z.shiftl (Z.pos m) e
               else Z.shiftr (Z.pos m) (- e) in
      Ok (if s then - a else a)
  | S754_infinity _ => Raise OverflowError
  | S754_nan => Raise (ValueError "cannot convert float NaN to integer")
  end.

End PyFloat.

(** ** hodl.py *)
Module Hodl.

(** A list comprehension whose element expression can raise. *)
Fixpoint traverse {A B} (f : A -> result B) (xs : list A) : result (list B) :=
  match xs with
  | [] => Ok []
  | x :: xs' =>
      and_then (f x) (fun y =>
      and_then (traverse f xs') (fun ys => Ok (y :: ys)))
  end.

(** [enumerate(xs)] *)
Definition enumerate {A} (xs : list A) : list (nat * A) :=
  combine (seq 0 (length xs)) xs.

(** [tx_size] of [spend_command], for [len(prevouts) = n] *)
Definition tx_size (n : nat) : Z :=
  4 + 2 + Z.of_nat n * 153 + 1 + 34 + 4.

(** The rate used, given the value [feerate] has after line 121. *)
Definition effective_feerate (feerate : Z) : Z :=
  if feerate <=? 0 then 10000 else feerate.

(** [int(tx_size / 1000 * feerate)] *)
Definition fees (n : nat) (feerate : Z) : result Z :=
  PyFloat.to_int
    (PyFloat.mul_int (PyFloat.truediv (tx_size n) 1000)
                     (effective_feerate feerate)).

(** [sum(prev_txout.nValue for outpoint, prev_txout in prevouts)] *)
Definition sum_in (prevouts : list (COutPoint * CTxOut)) : Z :=
  fold_left (fun acc p => acc + nValue (snd p)) prevouts 0.

Section WithSigning.
Context `{SigningService}.

Definition hodl_redeemScript (privkey : bytes) (nLockTime : Z) : CScript :=
  [SInt nLockTime; SOp OP_NOP2; SOp OP_DROP;
   SData (pubkey_of privkey); SOp OP_CHECKSIG].

(** [nonce] is the nonce [privkey.sign] draws. *)
Definition spend_hodl_redeemScript (privkey : bytes) (nLockTime : Z)
    (unsigned_tx : CTransaction) (n : nat) (nonce : bytes) : result CScript :=
  let redeemScript := hodl_redeemScript privkey nLockTime in
  and_then (SignatureHash redeemScript unsigned_tx n SIGHASH_ALL)
    (fun sighash =>
  let sig := ecdsa_sign privkey sighash nonce ++ hashtype_byte SIGHASH_ALL in
  Ok [SData sig; SScript redeemScript]).

(** [spend_command] from line 111 on: [prevouts] are the outpoints
    already looked up, [feerate] the integer of line 121,
    [addr_scriptPubKey] is [args.addr.to_scriptPubKey()], [nonces i] the
    nonce drawn when input [i] is signed.  The result is the transaction
    that is printed. *)
Definition spend_command (privkey : bytes) (nLockTime : Z)
    (prevouts : list (COutPoint * CTxOut)) (feerate : Z)
    (addr_scriptPubKey : CScript) (nonces : nat -> bytes)
    : result CTransaction :=
  let sum_in := sum_in prevouts in
  and_then (fees (length prevouts) feerate) (fun fees =>
  and_then (traverse (fun p => new_CTxIn (fst p) [] 0) prevouts)
    (fun unsigned_vin =>
  and_then
    (new_CTransaction
       unsigned_vin
       [mkCTxOut (sum_in - fees) addr_scriptPubKey]
       nLockTime
       1)
    (fun unsigned_tx =>
  and_then
    (traverse
       (fun it : nat * CTxIn =>
          and_then
            (spend_hodl_redeemScript privkey nLockTime unsigned_tx (fst it)
               (nonces (fst it)))
            (fun sig_script => new_CTxIn (prevout (snd it)) sig_script 0))
       (enumerate (vin unsigned_tx)))
    (fun signed_vin =>
  new_CTransaction signed_vin (vout unsigned_tx)
                   (bitcoin.nLockTime unsigned_tx) 1)))).

End WithSigning.
End Hodl.

(** ** The run at the end of micropayment-channel.py

    The concrete channel of the script's test run, with a stand-in for
    the signing machinery: no property below depends on what a digest or
    a signature contains. *)
Module Demo.

Definition signing : SigningService := {|
  sighash_digest := fun _ _ inIdx hashtype =>
    hashtype_byte (Z.of_nat inIdx) ++ hashtype_byte hashtype;
  ecdsa_sign := fun seckey digest nonce => seckey ++ digest ++ nonce;
  pubkey_of := fun seckey => seckey |}.

Definition sender_seckey : bytes := [x61; x6c; x69; x63; x65].
Definition receiver_seckey : bytes := [x62; x6f; x62].

Definition sender_change_scriptPubKey : CScript :=
  [SData sender_seckey; SOp OP_CHECKSIG].
Definition receiver_dest_scriptPubKey : CScript :=
  [SData receiver_seckey; SOp OP_CHECKSIG].

Definition deposit_outpoint : COutPoint := mkCOutPoint [x0f] 0.

Definition channel_params : MicropaymentParams.t :=
  MicropaymentParams.mk
    [SData sender_seckey; SOp OP_CHECKSIG]
    [SData receiver_seckey; SOp OP_CHECKSIGVERIFY]
    receiver_dest_scriptPubKey
    1000000000
    deposit_outpoint.

Definition deposit_nValue : Z := 10000000.
Definition fee : Z := 100000.

(** Two nonces. *)
Definition nonce1 : bytes := [x11].
Definition nonce2 : bytes := [x22].

Definition send_side : SenderMicropaymentChannel.t :=
  SenderMicropaymentChannel.init channel_params sender_seckey
    sender_change_scriptPubKey deposit_nValue.

Definition recv_side : ReceiverMicropaymentChannel.t :=
  ReceiverMicropaymentChannel.init channel_params receiver_seckey
    deposit_nValue.

(** A payment transaction paying [dest] to the receiver. *)
Definition payment (change dest : Z) (sig : bytes) : CTransaction :=
  mkCTransaction
    [mkCTxIn deposit_outpoint [SData sig] 0xFFFFFFFF]
    [mkCTxOut change sender_change_scriptPubKey;
     mkCTxOut dest receiver_dest_scriptPubKey]
    0 1.

(** The receiver after it has accepted a payment of 5000001. *)
Definition recv_side_paid : ReceiverMicropaymentChannel.t :=
  ReceiverMicropaymentChannel.mk
    (MicropaymentChannel.set_last_payment_tx
       (Some (payment 4899999 5000001 [x01]))
       (ReceiverMicropaymentChannel.base recv_side))
    receiver_seckey.

(** A transaction that spends another outpoint, has the payment
    layout, and pays the receiver 1. *)
Definition foreign_outpoint : COutPoint := mkCOutPoint [xff] 7.
Definition mistargeted_tx : CTransaction :=
  mkCTransaction
    [mkCTxIn foreign_outpoint [] 0xFFFFFFFF]
    [mkCTxOut 9899999 sender_change_scriptPubKey;
     mkCTxOut 1 receiver_dest_scriptPubKey]
    0 1.

(** A transaction with a single output. *)
Definition one_output_tx : CTransaction :=
  mkCTransaction
    [mkCTxIn deposit_outpoint [] 0xFFFFFFFF]
    [mkCTxOut 9900000 receiver_dest_scriptPubKey]
    0 1.

(** Eight hodl outputs of 100000 each. *)
Definition hodl_prevouts : list (COutPoint * CTxOut) :=
  map (fun i => (mkCOutPoint [x0f] (Z.of_nat i),
                 mkCTxOut 100000 [SOp OP_CHECKSIG]))
      (seq 0 8).

End Demo.

#[local] Existing Instance Demo.signing.

(** ** The specification's wording

    Definitions that follow the text of the specification, to be compared
    with what the code computes. *)
Module Spec.
Import MicropaymentChannel.

(** validatePaymentTx, check (a): the transaction spends exactly the
    deposit outpoint. *)
Definition spends_deposit_outpoint (params : MicropaymentParams.t)
    (tx : CTransaction) : Prop :=
  map prevout (vin tx) = [MicropaymentParams.deposit_outpoint params].

(** validatePaymentTx, check (d): the paid-to-receiver value is not
    less than the previously accepted value. *)
Definition value_not_decreased (self : MicropaymentChannel.t)
    (tx : CTransaction) : Prop :=
  forall last v_last,
    last_payment_tx self = Some last ->
    calc_payment_value last = Ok v_last ->
    exists v, calc_payment_value tx = Ok v /\ v_last <= v.

(** PaymentTransaction: one input, the deposit outpoint; two outputs,
    change to the sender then payment to the receiver; lock-time 0;
    the input's sequence number is not the all-ones final value. *)
Definition payment_transaction (params : MicropaymentParams.t)
    (sender_change_scriptPubKey : CScript) (tx : CTransaction) : Prop :=
  (exists txin,
      vin tx = [txin] /\
      prevout txin = MicropaymentParams.deposit_outpoint params /\
      nSequence txin <> 0xFFFFFFFF) /\
  (exists change_out dest_out,
      vout tx = [change_out; dest_out] /\
      scriptPubKey change_out = sender_change_scriptPubKey /\
      scriptPubKey dest_out =
        MicropaymentParams.receiver_dest_scriptPubKey params) /\
  nLockTime tx = 0.

(** FinalizationTransaction: the accepted payment with its single
    input's unlocking data replaced by
    {signature, branch-selector=1, depositScript}. *)
Definition finalization_of (params : MicropaymentParams.t)
    (last final : CTransaction) : Prop :=
  exists txin sig,
    vin last = [txin] /\
    final =
      mkCTransaction
        [mkCTxIn (prevout txin)
                 [SData sig; SInt 1;
                  SScript (MicropaymentParams.deposit_redeemScript params)]
                 (nSequence txin)]
        (vout last) (nLockTime last) (nVersion last).

(** estimateFee: floor(size/1000 * rate), with the floor rate 10000
    substituted for a rate that is not positive. *)
Definition estimateFee (numInputs : nat) (feeRatePerKB : Z) : Z :=
  let size := 4 + 2 + Z.of_nat numInputs * 153 + 1 + 34 + 4 in
  let rate := if feeRatePerKB <=? 0 then 10000 else feeRatePerKB in
  (size * rate) / 1000.

End Spec.

(** ** Sequences of calls on one object

    The caller keeps the object whether a call returns or raises. *)
Module Calls.

Definition recv_all (txs : list CTransaction)
    (self : ReceiverMicropaymentChannel.t) : ReceiverMicropaymentChannel.t :=
  fold_left
    (fun s tx => snd (ReceiverMicropaymentChannel.recv_payment_tx tx s))
    txs self.

(** The receiver's stored payment, if any, has a payment value. *)
Definition valued (self : ReceiverMicropaymentChannel.t) : Prop :=
  forall last,
    MicropaymentChannel.last_payment_tx
      (ReceiverMicropaymentChannel.base self) = Some last ->
    exists v, MicropaymentChannel.calc_payment_value last = Ok v.

(** A call of [send_payment]: its two arguments and the nonce the
    signature draws. *)
Record call := mkcall { amount : Z; fee : Z; nonce : bytes }.

(** The amounts of a list of calls, added up. *)
Definition amounts (calls : list call) : Z :=
  fold_right Z.add 0 (map amount calls).

Section WithSigning.
Context `{SigningService}.

Definition send_all (calls : list call)
    (self : SenderMicropaymentChannel.t) : SenderMicropaymentChannel.t :=
  fold_left
    (fun s c =>
       snd (SenderMicropaymentChannel.send_payment
              (amount c) (fee c) (nonce c) s))
    calls self.

(** The loop of the test run: each [send_payment] that returns hands its
    transaction to the receiver's [recv_payment_tx]; a call that raises
    sends nothing. *)
Definition relay_step (c : call)
    (sides : SenderMicropaymentChannel.t * ReceiverMicropaymentChannel.t)
    : SenderMicropaymentChannel.t * ReceiverMicropaymentChannel.t :=
  match SenderMicropaymentChannel.send_payment
          (amount c) (fee c) (nonce c) (fst sides) with
  | (Ok payment_tx, send_side) =>
      (send_side,
       snd (ReceiverMicropaymentChannel.recv_payment_tx payment_tx
              (snd sides)))
  | (Raise _, send_side) => (send_side, snd sides)
  end.

Definition relay (calls : list call)
    (sides : SenderMicropaymentChannel.t * ReceiverMicropaymentChannel.t)
    : SenderMicropaymentChannel.t * ReceiverMicropaymentChannel.t :=
  fold_left (fun sides c => relay_step c sides) calls sides.

End WithSigning.
End Calls.

(** * Properties *)

Ltac unfold_meth :=
  unfold bind, ret, raise, get, modify, lift in *.

(** ** The receiver *)
Module ReceiverFacts.
Import MicropaymentChannel ReceiverMicropaymentChannel.

Lemma validate_payment_tx_returns (tx : CTransaction) (self : t) :
  validate_payment_tx tx self = (Ok tt, self).
Proof. reflexivity. Qed.

Lemma calc_payment_value_lookup (tx : CTransaction) (v : Z) :
  calc_payment_value tx = Ok v <->
  exists txout, vout tx !! 1%nat = Some txout /\ nValue txout = v.
Proof.
  unfold calc_payment_value, index.
  destruct (vout tx !! 1%nat) as [txout|]; split.
  - intros [= <-]. eauto.
  - intros (o & [= <-] & <-). reflexivity.
  - discriminate.
  - intros (o & [=] & _).
Qed.

Lemma calc_payment_value_short (tx : CTransaction) :
  (length (vout tx) < 2)%nat -> calc_payment_value tx = Raise IndexError.
Proof.
  intros Hlen. unfold calc_payment_value, index.
  rewrite (proj2 (lookup_ge_None (vout tx) 1%nat)) by lia.
  reflexivity.
Qed.

Lemma recv_first (tx : CTransaction) (v : Z) (self : t) :
  calc_payment_value tx = Ok v ->
  last_payment_tx self = None ->
  recv_payment_tx tx self = (Ok v, storing tx self).
Proof.
  intros Hv Hnone. unfold recv_payment_tx, validate_payment_tx,
    assign_last_payment_tx. unfold_meth.
  rewrite Hv, Hnone. reflexivity.
Qed.

Lemma recv_next (tx last : CTransaction) (v v_last : Z) (self : t) :
  calc_payment_value tx = Ok v ->
  last_payment_tx self = Some last ->
  calc_payment_value last = Ok v_last ->
  recv_payment_tx tx self =
    (Ok (v - v_last), if 0 <? v - v_last then storing tx self else self).
Proof.
  intros Hv Hlast Hvl. unfold recv_payment_tx, validate_payment_tx,
    assign_last_payment_tx. unfold_meth.
  rewrite Hv, Hlast, Hvl.
  destruct (0 <? v - v_last); reflexivity.
Qed.

Lemma recv_raises_unchanged (tx : CTransaction) (e : exn) (self : t) :
  fst (recv_payment_tx tx self) = Raise e ->
  snd (recv_payment_tx tx self) = self.
Proof.
  unfold recv_payment_tx, validate_payment_tx, assign_last_payment_tx.
  unfold_meth.
  destruct (calc_payment_value tx) as [v|e1]; [|reflexivity].
  destruct (last_payment_tx self) as [last|]; [|discriminate].
  destruct (calc_payment_value last) as [vl|e2]; [|reflexivity].
  destruct (0 <? v - vl); discriminate.
Qed.

(** One call never lowers the value of the stored payment. *)
Lemma recv_step_monotone (tx last : CTransaction) (v_last : Z) (self : t) :
  last_payment_tx self = Some last ->
  calc_payment_value last = Ok v_last ->
  exists last' v',
    last_payment_tx (snd (recv_payment_tx tx self)) = Some last' /\
    calc_payment_value last' = Ok v' /\
    v_last <= v'.
Proof.
  intros Hlast Hvl.
  destruct (calc_payment_value tx) as [v|e] eqn:Hv.
  - rewrite (recv_next tx last v v_last self Hv Hlast Hvl). cbn [snd].
    destruct (0 <? v - v_last) eqn:Hd.
    + exists tx, v. apply Z.ltb_lt in Hd. cbn. repeat split; [assumption | lia].
    + exists last, v_last. repeat split; [assumption | assumption | lia].
  - assert (Hr : fst (recv_payment_tx tx self) = Raise e).
    { unfold recv_payment_tx, validate_payment_tx. unfold_meth.
      rewrite Hv. reflexivity. }
    rewrite (recv_raises_unchanged tx e self Hr).
    exists last, v_last. repeat split; [assumption | assumption | lia].
Qed.

Lemma recv_all_monotone (txs : list CTransaction) :
  forall (self : t) (last : CTransaction) (v_last : Z),
    last_payment_tx self = Some last ->
    calc_payment_value last = Ok v_last ->
    exists last' v',
      last_payment_tx (Calls.recv_all txs self) = Some last' /\
      calc_payment_value last' = Ok v' /\
      v_last <= v'.
Proof.
  induction txs as [|tx txs IH]; intros self last v_last Hlast Hvl.
  - exists last, v_last. repeat split; [assumption | assumption | lia].
  - destruct (recv_step_monotone tx last v_last self Hlast Hvl)
      as (l1 & v1 & Hl1 & Hv1 & Hle1).
    destruct (IH _ l1 v1 Hl1 Hv1) as (l2 & v2 & Hl2 & Hv2 & Hle2).
    exists l2, v2. repeat split; [exact Hl2 | exact Hv2 | lia].
Qed.

End ReceiverFacts.

(** ** Finalization: what the method does in each case *)
Module FinalizationFacts.
Import MicropaymentChannel ReceiverMicropaymentChannel.

Lemma serializable_inv (tx : CTransaction) :
  serializable tx = true ->
  is_int32 (nVersion tx) = true /\
  forallb serializable_txin (vin tx) = true /\
  forallb serializable_txout (vout tx) = true /\
  is_uint32 (nLockTime tx) = true.
Proof.
  unfold serializable. intros Hs.
  apply andb_true_iff in Hs as [Hs Hlock].
  apply andb_true_iff in Hs as [Hs Hout].
  apply andb_true_iff in Hs as [Hver Hin].
  auto.
Qed.

(** Under ALL the whole transaction is serialized. *)
Lemma hashed_part_all (tx : CTransaction) (inIdx : nat) :
  serializable (hashed_part tx inIdx SIGHASH_ALL) = serializable tx.
Proof. reflexivity. Qed.

Section WithSigning.
Context `{SigningService}.

Lemma make_finalization_tx_pure (nonce : bytes) (self : t) :
  snd (make_finalization_tx nonce self) = self.
Proof.
  unfold make_finalization_tx. unfold_meth.
  repeat match goal with
         | |- context [match ?x with _ => _ end] => destruct x
         end; reflexivity.
Qed.

(** The stored transaction can be serialized and has a first input:
    the method returns. *)
Lemma make_finalization_tx_returns (nonce : bytes) (self : t)
    (last : CTransaction) (txin : CTxIn) (rest : list CTxIn) :
  last_payment_tx self = Some last ->
  vin last = txin :: rest ->
  serializable last = true ->
  make_finalization_tx nonce self =
    (Ok (mkCTransaction
           [mkCTxIn (prevout txin)
              (scriptSig txin ++
                 [SData
                    (ecdsa_sign (receiver_seckey self)
                       (sighash_digest
                          (MicropaymentParams.deposit_redeemScript
                             (params self))
                          last 0 SIGHASH_ALL)
                       nonce
                     ++ [x01]);
                  SInt 1;
                  SScript (MicropaymentParams.deposit_redeemScript
                             (params self))])
              (nSequence txin)]
           (vout last) (nLockTime last) (nVersion last)),
     self).
Proof.
  intros Hlast Hvin Hser.
  destruct (serializable_inv last Hser) as (_ & Hin & _ & Hlock).
  rewrite Hvin in Hin. cbn [forallb] in Hin.
  apply andb_true_iff in Hin as [Htxin _].
  apply andb_true_iff in Htxin as [_ Hseq].
  unfold make_finalization_tx, SignatureHash. unfold_meth.
  rewrite Hlast, (hashed_part_all last 0), Hser, Hvin.
  cbn [length Nat.ltb Nat.leb index lookup list_lookup].
  unfold new_CTxIn, new_CTransaction. rewrite Hseq, Hlock. reflexivity.
Qed.

(** What a returned finalization says about the stored transaction. *)
Lemma make_finalization_tx_inv (nonce : bytes) (self : t)
    (final : CTransaction) :
  fst (make_finalization_tx nonce self) = Ok final ->
  exists last txin rest,
    last_payment_tx self = Some last /\
    vin last = txin :: rest /\
    serializable last = true /\
    vout final = vout last /\
    nLockTime final = nLockTime last /\
    nVersion final = nVersion last.
Proof.
  intros Hok.
  destruct (last_payment_tx self) as [last|] eqn:Hlast.
  2:{ revert Hok. unfold make_finalization_tx. unfold_meth.
      rewrite Hlast. intros [=]. }
  destruct (vin last) as [|txin rest] eqn:Hvin.
  { revert Hok. unfold make_finalization_tx, SignatureHash. unfold_meth.
    rewrite Hlast, Hvin. cbn. intros [=]. }
  destruct (serializable last) eqn:Hser.
  - rewrite (make_finalization_tx_returns nonce self last txin rest
               Hlast Hvin Hser) in Hok.
    injection Hok as <-. exists last, txin, rest. repeat split; assumption.
  - exfalso. revert Hok.
    unfold make_finalization_tx, SignatureHash. unfold_meth.
    rewrite Hlast, (hashed_part_all last 0), Hser, Hvin. cbn. intros [=].
Qed.

End WithSigning.
End FinalizationFacts.

Module ReceiverClaims.
Import MicropaymentChannel ReceiverMicropaymentChannel ReceiverFacts.

(** C1 (the code departs from the claim).  [validate_payment_tx]
    performs none of the four checks.  On the receiver that has
    accepted 5000001, a transaction that spends another outpoint and
    pays the receiver 1 fails check (a) and check (d) of the
    specification, and yet [validate_payment_tx] returns normally and
    [recv_payment_tx] returns the delta -5000000 instead of raising. *)
Theorem validate_payment_tx_checks_nothing :
  ~ Spec.spends_deposit_outpoint Demo.channel_params Demo.mistargeted_tx /\
  ~ Spec.value_not_decreased Demo.recv_side_paid Demo.mistargeted_tx /\
  validate_payment_tx Demo.mistargeted_tx Demo.recv_side_paid
    = (Ok tt, Demo.recv_side_paid) /\
  recv_payment_tx Demo.mistargeted_tx Demo.recv_side_paid
    = (Ok (-5000000), Demo.recv_side_paid).
Proof.
  split; [|split; [|split]].
  - unfold Spec.spends_deposit_outpoint. cbn. discriminate.
  - intros Hd.
    destruct (Hd (Demo.payment 4899999 5000001 [x01]) 5000001
                 eq_refl eq_refl) as (v & Hv & Hle).
    cbn in Hv. injection Hv as <-. lia.
  - reflexivity.
  - reflexivity.
Qed.

(** C2.  [recv_payment_tx tx], for a [tx] whose payment value [v] is
    defined: with no payment stored it returns [v] and afterwards
    [last_payment_tx] is [tx]; with a payment [last] of value [v_last]
    stored it returns [v - v_last], and afterwards [last_payment_tx] is
    [tx] when that delta is positive and still [last], in an unchanged
    receiver, when it is not; so a submission that is not higher
    changes nothing and returns a non-positive delta, and over any
    sequence of calls the value of the stored payment never
    decreases. *)
Theorem recv_payment_tx_monotone_acceptance
    (self : t) (tx : CTransaction) (v : Z)
    (Hv : calc_payment_value tx = Ok v) :
  (last_payment_tx self = None ->
     recv_payment_tx tx self = (Ok v, storing tx self) /\
     last_payment_tx (snd (recv_payment_tx tx self)) = Some tx) /\
  (forall last v_last,
     last_payment_tx self = Some last ->
     calc_payment_value last = Ok v_last ->
     recv_payment_tx tx self =
       (Ok (v - v_last),
        if 0 <? v - v_last then storing tx self else self) /\
     (0 < v - v_last ->
        last_payment_tx (snd (recv_payment_tx tx self)) = Some tx) /\
     (v - v_last <= 0 ->
        last_payment_tx (snd (recv_payment_tx tx self)) = Some last) /\
     (v <= v_last ->
        snd (recv_payment_tx tx self) = self /\ v - v_last <= 0) /\
     (forall txs, exists last' v',
        last_payment_tx (Calls.recv_all txs self) = Some last' /\
        calc_payment_value last' = Ok v' /\
        v_last <= v')).
Proof.
  split.
  - intros Hnone. rewrite (recv_first tx v self Hv Hnone).
    split; reflexivity.
  - intros last v_last Hlast Hvl.
    pose proof (recv_next tx last v v_last self Hv Hlast Hvl) as Hstep.
    split; [exact Hstep|]. rewrite Hstep. cbn [snd].
    destruct (0 <? v - v_last) eqn:Hd.
    + apply Z.ltb_lt in Hd.
      split; [intros _; reflexivity|].
      split; [intros Hle; lia|].
      split; [intros Hle; lia|].
      intros txs. exact (recv_all_monotone txs self last v_last Hlast Hvl).
    + apply Z.ltb_ge in Hd.
      split; [intros Hpos; lia|].
      split; [intros _; exact Hlast|].
      split; [intros _; split; [reflexivity | exact Hd]|].
      intros txs. exact (recv_all_monotone txs self last v_last Hlast Hvl).
Qed.

(** The receiver that has accepted 5000001 is sent 5000002: the delta
    is 1 and the new transaction is stored. *)
Lemma recv_payment_tx_monotone_acceptance_witness :
  calc_payment_value (Demo.payment 4899998 5000002 [x02]) = Ok 5000002 /\
  fst (recv_payment_tx (Demo.payment 4899998 5000002 [x02])
         Demo.recv_side_paid) = Ok 1 /\
  last_payment_tx
    (snd (recv_payment_tx (Demo.payment 4899998 5000002 [x02])
            Demo.recv_side_paid))
    = Some (Demo.payment 4899998 5000002 [x02]).
Proof.
  split; [reflexivity|].
  destruct (recv_payment_tx_monotone_acceptance
              Demo.recv_side_paid (Demo.payment 4899998 5000002 [x02])
              5000002 eq_refl) as [_ Hnext].
  destruct (Hnext (Demo.payment 4899999 5000001 [x01]) 5000001
                  eq_refl eq_refl) as (Hstep & Hstored & _).
  split; [rewrite Hstep; reflexivity|].
  apply Hstored. reflexivity.
Defined.

Section WithSigning.
Context `{SigningService}.

(** C10.  Every receiver-side operation finds the payment at output
    index 1.  [calc_payment_value] is defined exactly when that output
    exists and is its value; [total_sent] is that value of the stored
    transaction; [recv_payment_tx] on a transaction that has output 1
    returns that output's value minus [total_sent], whatever the other
    outputs are; a finalization that is returned carries the stored
    transaction's output 1 at index 1, so its payment value is
    [total_sent].  For a transaction with fewer than two outputs
    [recv_payment_tx] raises [IndexError] (no validation failure is
    reported) and stores nothing. *)
Theorem recv_payment_tx_needs_two_outputs
    (self : t) (tx : CTransaction) :
  ((length (vout tx) < 2)%nat ->
     recv_payment_tx tx self = (Raise IndexError, self) /\
     calc_payment_value tx = Raise IndexError /\
     total_sent (storing tx self) = Raise IndexError) /\
  (forall tx' v,
     calc_payment_value tx' = Ok v <->
     exists txout, vout tx' !! 1%nat = Some txout /\ nValue txout = v) /\
  (forall last txout,
     last_payment_tx self = Some last ->
     vout last !! 1%nat = Some txout ->
     total_sent self = Ok (nValue txout)) /\
  (forall txout s,
     vout tx !! 1%nat = Some txout ->
     total_sent self = Ok s ->
     fst (recv_payment_tx tx self) = Ok (nValue txout - s)) /\
  (forall nonce final,
     fst (make_finalization_tx nonce self) = Ok final ->
     exists last,
       last_payment_tx self = Some last /\
       vout final !! 1%nat = vout last !! 1%nat /\
       calc_payment_value final = total_sent self).
Proof.
  split; [|split; [|split; [|split]]].
  - intros Hshort.
    pose proof (calc_payment_value_short tx Hshort) as Hraise.
    split; [|split].
    + unfold recv_payment_tx, validate_payment_tx. unfold_meth.
      rewrite Hraise. reflexivity.
    + exact Hraise.
    + unfold total_sent. cbn. exact Hraise.
  - intros tx' v. apply calc_payment_value_lookup.
  - intros last txout Hlast Hout. unfold total_sent. rewrite Hlast.
    apply calc_payment_value_lookup. eauto.
  - intros txout s Hout Hs.
    assert (Hv : calc_payment_value tx = Ok (nValue txout))
      by (apply calc_payment_value_lookup; eauto).
    unfold total_sent in Hs.
    destruct (last_payment_tx self) as [last|] eqn:Hlast.
    + rewrite (recv_next tx last _ s self Hv Hlast Hs). reflexivity.
    + injection Hs as <-. rewrite (recv_first tx _ self Hv Hlast).
      cbn [fst]. f_equal. lia.
  - intros nonce final Hfinal.
    destruct (FinalizationFacts.make_finalization_tx_inv nonce self final
                Hfinal)
      as (last & txin & rest & Hlast & _ & _ & Hvout & _).
    exists last. split; [exact Hlast|].
    unfold total_sent, calc_payment_value, index.
    rewrite Hlast, Hvout. split; reflexivity.
Qed.

End WithSigning.

Lemma recv_payment_tx_needs_two_outputs_witness :
  (length (vout Demo.one_output_tx) < 2)%nat /\
  recv_payment_tx Demo.one_output_tx Demo.recv_side
    = (Raise IndexError, Demo.recv_side) /\
  vout Demo.mistargeted_tx !! 1%nat
    = Some (mkCTxOut 1 Demo.receiver_dest_scriptPubKey) /\
  total_sent Demo.recv_side_paid = Ok 5000001 /\
  fst (recv_payment_tx Demo.mistargeted_tx Demo.recv_side_paid)
    = Ok (1 - 5000001) /\
  (exists final last,
     fst (make_finalization_tx Demo.nonce1 Demo.recv_side_paid) = Ok final /\
     last_payment_tx Demo.recv_side_paid = Some last /\
     vout final !! 1%nat = vout last !! 1%nat).
Proof.
  assert (Hshort : (length (vout Demo.one_output_tx) < 2)%nat)
    by (cbn; lia).
  split; [exact Hshort|].
  split.
  { exact (proj1 (proj1 (recv_payment_tx_needs_two_outputs
                           Demo.recv_side Demo.one_output_tx) Hshort)). }
  split; [reflexivity | split; [reflexivity|]].
  destruct (recv_payment_tx_needs_two_outputs
              Demo.recv_side_paid Demo.mistargeted_tx)
    as (_ & _ & _ & Hrecv & Hfin).
  split.
  { exact (Hrecv (mkCTxOut 1 Demo.receiver_dest_scriptPubKey) 5000001
                 eq_refl eq_refl). }
  eexists.
  destruct (Hfin Demo.nonce1 _ eq_refl) as (last & Hlast & Hout & _).
  exists last. split; [reflexivity | split; [exact Hlast | exact Hout]].
Defined.

End ReceiverClaims.

Module FinalizationClaims.
Import MicropaymentChannel ReceiverMicropaymentChannel ReceiverFacts.

Section WithSigning.
Context `{SigningService}.

(** C5 (as amended).  [make_finalization_tx] raises when no payment
    has been accepted.  When the last accepted payment has a single
    input and can be serialized (every fixed-width field within its
    range), it returns that transaction with its outputs, lock-time,
    version, input outpoint and sequence number unchanged and with the
    input's unlocking data extended: the items already there, followed
    by the receiver's signature under ALL, the branch selector 1 and the
    deposit script.  The receiver is left as it was. *)
Theorem make_finalization_tx_extends_unlocking_data
    (self : t) (nonce : bytes) :
  (last_payment_tx self = None ->
     make_finalization_tx nonce self = (Raise AttributeError, self)) /\
  (forall last txin,
     last_payment_tx self = Some last ->
     vin last = [txin] ->
     serializable last = true ->
     let redeemScript :=
       MicropaymentParams.deposit_redeemScript (params self) in
     let sig :=
       ecdsa_sign (receiver_seckey self)
                  (sighash_digest redeemScript last 0 SIGHASH_ALL)
                  nonce
       ++ hashtype_byte SIGHASH_ALL in
     make_finalization_tx nonce self =
       (Ok (mkCTransaction
              [mkCTxIn (prevout txin)
                       (scriptSig txin ++
                          [SData sig; SInt 1; SScript redeemScript])
                       (nSequence txin)]
              (vout last) (nLockTime last) (nVersion last)),
        self)).
Proof.
  split.
  - intros Hnone. unfold make_finalization_tx. unfold_meth.
    rewrite Hnone. reflexivity.
  - intros last txin Hlast Hvin Hser. cbv zeta.
    exact (FinalizationFacts.make_finalization_tx_returns nonce self last
             txin [] Hlast Hvin Hser).
Qed.

End WithSigning.

Lemma make_finalization_tx_extends_unlocking_data_witness :
  last_payment_tx Demo.recv_side_paid
    = Some (Demo.payment 4899999 5000001 [x01]) /\
  vin (Demo.payment 4899999 5000001 [x01])
    = [mkCTxIn Demo.deposit_outpoint [SData [x01]] 0xFFFFFFFF] /\
  serializable (Demo.payment 4899999 5000001 [x01]) = true /\
  exists final,
    fst (make_finalization_tx Demo.nonce1 Demo.recv_side_paid) = Ok final /\
    vout final = vout (Demo.payment 4899999 5000001 [x01]) /\
    nLockTime final = 0.
Proof.
  split; [reflexivity | split; [reflexivity | split; [reflexivity|]]].
  pose proof (proj2 (make_finalization_tx_extends_unlocking_data
                       Demo.recv_side_paid Demo.nonce1)
                (Demo.payment 4899999 5000001 [x01])
                (mkCTxIn Demo.deposit_outpoint [SData [x01]] 0xFFFFFFFF)
                eq_refl eq_refl eq_refl) as Hfinal.
  cbv zeta in Hfinal. rewrite Hfinal.
  eexists. split; [reflexivity | split; reflexivity].
Defined.

(** C5 as stated fails: finalizing the payment the sender signed gives
    an input whose unlocking data keeps the sender's signature in
    front of the receiver's three items, so it is not
    {signature, 1, depositScript}. *)
Lemma make_finalization_tx_keeps_sender_signature :
  exists final,
    fst (make_finalization_tx Demo.nonce1 Demo.recv_side_paid) = Ok final /\
    ~ Spec.finalization_of Demo.channel_params
        (Demo.payment 4899999 5000001 [x01]) final.
Proof.
  eexists. split; [reflexivity|].
  intros (txin & sig & Hvin & Hfinal).
  cbn in Hvin. injection Hvin as <-.
  cbn in Hfinal. discriminate Hfinal.
Qed.

End FinalizationClaims.

(** ** The sender *)
Module SenderFacts.
Import MicropaymentChannel SenderMicropaymentChannel.

Section WithSigning.
Context `{SigningService}.

(** Past the two checks on the amounts, [make_payment_tx] returns the
    signed payment when the unsigned one can be serialized and raises
    [struct.error] otherwise. *)
Lemma make_payment_tx_funded (self : t) (d f s : Z) (nonce : bytes) :
  total_sent self = Ok s ->
  0 <= d ->
  0 <= deposit_nValue self - s - d - f ->
  make_payment_tx d f nonce self =
    (if is_uint32
          (op_n (MicropaymentParams.deposit_outpoint (params self))) &&
        is_int64 (deposit_nValue self - s - d - f) &&
        is_int64 (s + d)
     then
       Ok (mkCTransaction
             [mkCTxIn
                (MicropaymentParams.deposit_outpoint (params self))
                [SData
                   (ecdsa_sign (sender_seckey self)
                      (sighash_digest
                         (MicropaymentParams.deposit_redeemScript
                            (params self))
                         (mkCTransaction
                            [mkCTxIn
                               (MicropaymentParams.deposit_outpoint
                                  (params self))
                               [] 0xFFFFFFFF]
                            [mkCTxOut (deposit_nValue self - s - d - f)
                                      (sender_change_scriptPubKey self);
                             mkCTxOut (s + d)
                               (MicropaymentParams.receiver_dest_scriptPubKey
                                  (params self))]
                            0 1)
                         0 0x81)
                      nonce
                    ++ [x81])]
                0xFFFFFFFF]
             [mkCTxOut (deposit_nValue self - s - d - f)
                       (sender_change_scriptPubKey self);
              mkCTxOut (s + d)
                (MicropaymentParams.receiver_dest_scriptPubKey
                   (params self))]
             0 1)
     else Raise StructError,
     self).
Proof.
  intros Hs Hd Hchange.
  unfold make_payment_tx. unfold_meth.
  destruct (d <? 0) eqn:Ed; [apply Z.ltb_lt in Ed; lia|].
  rewrite Hs.
  destruct (deposit_nValue self - s - d - f <? 0) eqn:Ec;
    [apply Z.ltb_lt in Ec; lia|].
  replace (deposit_nValue self - (deposit_nValue self - s - d - f) - f)
    with (s + d) by lia.
  unfold MicropaymentParams.make_payment_tx, new_CTxIn, new_CTransaction,
    SignatureHash, hashed_part, serializable, serializable_txin,
    serializable_txout, MicropaymentParams.default_nSequence,
    MicropaymentParams.default_txin_scriptSig.
  change (Z.lor SIGHASH_ANYONECANPAY SIGHASH_ALL) with 0x81.
  change (Z.testbit 0x81 7) with true.
  change (hashtype_byte 0x81) with [x81].
  change (is_uint32 0xFFFFFFFF) with true.
  change (is_uint32 0) with true.
  cbn -[is_int64 is_uint32 Z.sub Z.add].
  change (is_uint32 0xFFFFFFFF) with true.
  destruct (is_uint32
              (op_n (MicropaymentParams.deposit_outpoint (params self))));
    [|reflexivity].
  destruct (is_int64 (deposit_nValue self - s - d - f)); [|reflexivity].
  destruct (is_int64 (s + d)); reflexivity.
Qed.

Lemma make_payment_tx_negative (self : t) (d f : Z) (nonce : bytes) :
  d < 0 -> make_payment_tx d f nonce self = (Raise NegativeAmount, self).
Proof.
  intros Hd. unfold make_payment_tx. unfold_meth.
  destruct (d <? 0) eqn:Ed; [reflexivity | apply Z.ltb_ge in Ed; lia].
Qed.

Lemma make_payment_tx_insufficient (self : t) (d f s : Z) (nonce : bytes) :
  total_sent self = Ok s ->
  0 <= d ->
  deposit_nValue self - s - d - f < 0 ->
  make_payment_tx d f nonce self = (Raise InsufficientFunds, self).
Proof.
  intros Hs Hd Hchange. unfold make_payment_tx. unfold_meth.
  destruct (d <? 0) eqn:Ed; [apply Z.ltb_lt in Ed; lia|].
  rewrite Hs.
  destruct (deposit_nValue self - s - d - f <? 0) eqn:Ec;
    [reflexivity | apply Z.ltb_ge in Ec; lia].
Qed.

Lemma make_payment_tx_undefined_total (self : t) (d f : Z) (nonce : bytes)
    (e : exn) :
  total_sent self = Raise e ->
  0 <= d ->
  make_payment_tx d f nonce self = (Raise e, self).
Proof.
  intros Hs Hd. unfold make_payment_tx. unfold_meth.
  destruct (d <? 0) eqn:Ed; [apply Z.ltb_lt in Ed; lia|].
  rewrite Hs. reflexivity.
Qed.

(** [total_sent] raises nothing but [IndexError]. *)
Lemma total_sent_raises (self : MicropaymentChannel.t) (e : exn) :
  total_sent self = Raise e -> e = IndexError.
Proof.
  unfold total_sent, calc_payment_value, index.
  destruct (last_payment_tx self) as [last|]; [|discriminate].
  destruct (vout last !! 1%nat); [discriminate | intros [= <-]; reflexivity].
Qed.

(** [make_payment_tx] leaves the object as it was, whatever it does. *)
Lemma make_payment_tx_pure (self : t) (d f : Z) (nonce : bytes) :
  snd (make_payment_tx d f nonce self) = self.
Proof.
  destruct (Z.lt_ge_cases d 0) as [Hneg|Hd].
  - rewrite make_payment_tx_negative by assumption. reflexivity.
  - destruct (total_sent self) as [s|e] eqn:Hs.
    + destruct (Z.lt_ge_cases (deposit_nValue self - s - d - f) 0)
        as [Hlow|Hchange].
      * rewrite (make_payment_tx_insufficient self d f s) by assumption.
        reflexivity.
      * rewrite (make_payment_tx_funded self d f s nonce Hs Hd Hchange).
        reflexivity.
    + rewrite (make_payment_tx_undefined_total self d f nonce e)
        by assumption.
      reflexivity.
Qed.

(** What a successful [make_payment_tx] says about its arguments. *)
Lemma make_payment_tx_inv (self : t) (d f : Z) (nonce : bytes)
    (tx : CTransaction) :
  fst (make_payment_tx d f nonce self) = Ok tx ->
  exists s sig,
    total_sent self = Ok s /\
    0 <= d /\
    0 <= deposit_nValue self - s - d - f /\
    tx = mkCTransaction
           [mkCTxIn (MicropaymentParams.deposit_outpoint (params self))
                    [SData sig] 0xFFFFFFFF]
           [mkCTxOut (deposit_nValue self - s - d - f)
                     (sender_change_scriptPubKey self);
            mkCTxOut (s + d)
              (MicropaymentParams.receiver_dest_scriptPubKey (params self))]
           0 1 /\
    is_uint32 (op_n (MicropaymentParams.deposit_outpoint (params self)))
      = true /\
    is_int64 (deposit_nValue self - s - d - f) = true /\
    is_int64 (s + d) = true.
Proof.
  intros Hok.
  destruct (Z.lt_ge_cases d 0) as [Hneg|Hd].
  { rewrite make_payment_tx_negative in Hok by assumption.
    discriminate Hok. }
  destruct (total_sent self) as [s|e] eqn:Hs.
  2:{ rewrite (make_payment_tx_undefined_total self d f nonce e) in Hok
        by assumption. discriminate Hok. }
  destruct (Z.lt_ge_cases (deposit_nValue self - s - d - f) 0)
    as [Hlow|Hchange].
  { rewrite (make_payment_tx_insufficient self d f s) in Hok
      by assumption. discriminate Hok. }
  rewrite (make_payment_tx_funded self d f s nonce Hs Hd Hchange) in Hok.
  cbn [fst] in Hok.
  destruct (is_uint32 _) eqn:Hout; [|discriminate Hok].
  destruct (is_int64 (deposit_nValue self - s - d - f)) eqn:Hc64;
    [|discriminate Hok].
  destruct (is_int64 (s + d)) eqn:Hd64; [|discriminate Hok].
  cbn [andb] in Hok. injection Hok as <-.
  exists s. eexists. repeat split; assumption.
Qed.

(** [send_payment] in terms of [make_payment_tx]. *)
Lemma send_payment_unfold (self : t) (d f : Z) (nonce : bytes) :
  send_payment d f nonce self =
    match fst (make_payment_tx d f nonce self) with
    | Ok tx => (Ok tx, storing tx self)
    | Raise e => (Raise e, self)
    end.
Proof.
  pose proof (make_payment_tx_pure self d f nonce) as Hpure.
  unfold send_payment, assign_last_payment_tx. unfold_meth.
  destruct (make_payment_tx d f nonce self) as [[tx|e] self'];
    cbn in Hpure |- *; subst self'; reflexivity.
Qed.

Lemma total_sent_storing (self : t) (tx : CTransaction) :
  total_sent (storing tx self) = calc_payment_value tx.
Proof. reflexivity. Qed.

(** A call of [send_payment] changes [last_payment_tx] only. *)
Lemma send_payment_frame (self : t) (d f : Z) (nonce : bytes) :
  let self' := snd (send_payment d f nonce self) in
  params self' = params self /\
  deposit_nValue self' = deposit_nValue self /\
  sender_seckey self' = sender_seckey self /\
  sender_change_scriptPubKey self' = sender_change_scriptPubKey self.
Proof.
  cbv zeta. rewrite send_payment_unfold.
  destruct (fst (make_payment_tx d f nonce self)); cbn; auto.
Qed.

Lemma send_all_frame (calls : list Calls.call) :
  forall self : t,
    let self' := Calls.send_all calls self in
    params self' = params self /\
    deposit_nValue self' = deposit_nValue self /\
    sender_seckey self' = sender_seckey self /\
    sender_change_scriptPubKey self' = sender_change_scriptPubKey self.
Proof.
  induction calls as [|c calls IH]; intros self; cbv zeta.
  - cbn. auto.
  - cbn [Calls.send_all fold_left].
    destruct (IH (snd (send_payment (Calls.amount c) (Calls.fee c)
                         (Calls.nonce c) self)))
      as (Hp & Hv & Hk & Hc).
    destruct (send_payment_frame self (Calls.amount c) (Calls.fee c)
                (Calls.nonce c)) as (Hp1 & Hv1 & Hk1 & Hc1).
    unfold Calls.send_all in *.
    rewrite Hp, Hv, Hk, Hc. auto.
Qed.

(** Over a sequence of [send_payment] calls [total_sent] stays
    defined and never decreases. *)
Lemma send_all_total_sent (calls : list Calls.call) :
  forall (self : t) (s : Z),
    total_sent self = Ok s ->
    exists s',
      total_sent (Calls.send_all calls self) = Ok s' /\ s <= s'.
Proof.
  induction calls as [|c calls IH]; intros self s Hs.
  - exists s. split; [exact Hs | lia].
  - cbn [Calls.send_all fold_left].
    assert (Hstep : exists s1,
               total_sent (snd (send_payment (Calls.amount c) (Calls.fee c)
                                  (Calls.nonce c) self)) = Ok s1 /\
               s <= s1).
    { rewrite send_payment_unfold.
      destruct (fst (make_payment_tx (Calls.amount c) (Calls.fee c)
                       (Calls.nonce c) self)) as [tx|e] eqn:Hmake.
      - destruct (make_payment_tx_inv self _ _ _ tx Hmake)
          as (s0 & sig & Hs0 & Hd & _ & -> & _).
        rewrite Hs in Hs0. injection Hs0 as <-.
        exists (s + Calls.amount c). split; [reflexivity | lia].
      - exists s. split; [exact Hs | lia]. }
    destruct Hstep as (s1 & Hs1 & Hle1).
    destruct (IH _ s1 Hs1) as (s2 & Hs2 & Hle2).
    exists s2. split; [exact Hs2 | lia].
Qed.

(** Every sender reached from [init] by [send_payment] calls has a
    defined [total_sent]. *)
Lemma reachable_total_sent_defined (params : MicropaymentParams.t)
    (seckey : bytes) (change : CScript) (deposit : Z)
    (calls : list Calls.call) :
  exists s,
    total_sent (Calls.send_all calls (init params seckey change deposit))
      = Ok s /\ 0 <= s.
Proof.
  exact (send_all_total_sent calls (init params seckey change deposit)
           0 eq_refl).
Qed.

(** [make_refund_tx] returns the signed refund when the unsigned one
    is accepted by the constructors and can be serialized. *)
Lemma make_refund_tx_returns (self : t) (fee : Z) (nonce : bytes) :
  is_uint32 (op_n (MicropaymentParams.deposit_outpoint (params self)))
    = true ->
  is_uint32 (MicropaymentParams.expiry_nlocktime (params self)) = true ->
  is_int64 (deposit_nValue self - fee) = true ->
  make_refund_tx fee nonce self =
    (Ok (mkCTransaction
           [mkCTxIn
              (MicropaymentParams.deposit_outpoint (params self))
              [SData
                 (ecdsa_sign (sender_seckey self)
                    (sighash_digest
                       (MicropaymentParams.deposit_redeemScript (params self))
                       (mkCTransaction
                          [mkCTxIn
                             (MicropaymentParams.deposit_outpoint
                                (params self))
                             [] 0]
                          [mkCTxOut (deposit_nValue self - fee)
                                    (sender_change_scriptPubKey self)]
                          (MicropaymentParams.expiry_nlocktime (params self))
                          1)
                       0 1)
                    nonce
                  ++ [x01]);
               SInt 0;
               SScript (MicropaymentParams.deposit_redeemScript
                          (params self))]
              0]
           [mkCTxOut (deposit_nValue self - fee)
                     (sender_change_scriptPubKey self)]
           (MicropaymentParams.expiry_nlocktime (params self))
           1),
     self).
Proof.
  intros Hout Hexp Hval.
  unfold make_refund_tx, new_CTxIn, new_CTransaction, SignatureHash,
    hashed_part, serializable, serializable_txin, serializable_txout.
  unfold_meth.
  change (Z.testbit SIGHASH_ALL 7) with false.
  change (hashtype_byte SIGHASH_ALL) with [x01].
  repeat first
    [ rewrite Hexp
    | rewrite Hout
    | rewrite Hval
    | progress change (is_uint32 0) with true
    | progress cbn -[is_int64 is_uint32 Z.sub] ].
  reflexivity.
Qed.

Lemma make_refund_tx_pure (self : t) (fee : Z) (nonce : bytes) :
  snd (make_refund_tx fee nonce self) = self.
Proof.
  unfold make_refund_tx. unfold_meth.
  repeat match goal with
         | |- context [match ?x with _ => _ end] => destruct x
         end; reflexivity.
Qed.

End WithSigning.
End SenderFacts.

Module SenderClaims.
Import MicropaymentChannel SenderMicropaymentChannel SenderFacts.

Section WithSigning.
Context `{SigningService}.

(** C3.  Balance conservation: with deposit [D], total sent [s], an
    amount [d >= 0] and a fee [f] such that [D - s - d - f >= 0], and
    with the deposit outpoint's index and the two output values within
    the ranges of the serialized format, [make_payment_tx] and
    [send_payment] return the same transaction; its change output is
    worth [D - s - d - f], its output to the receiver [s + d], and the
    two outputs and the fee add up to [D]. *)
Theorem make_payment_tx_conserves_balance (self : t) (d f s : Z)
    (nonce : bytes)
    (Hs : total_sent self = Ok s)
    (Hd : 0 <= d)
    (Hchange : 0 <= deposit_nValue self - s - d - f)
    (Hout : is_uint32
              (op_n (MicropaymentParams.deposit_outpoint (params self)))
            = true)
    (Hchange64 : is_int64 (deposit_nValue self - s - d - f) = true)
    (Hdest64 : is_int64 (s + d) = true) :
  exists tx change_out dest_out,
    fst (make_payment_tx d f nonce self) = Ok tx /\
    fst (send_payment d f nonce self) = Ok tx /\
    vout tx = [change_out; dest_out] /\
    nValue change_out = deposit_nValue self - s - d - f /\
    nValue dest_out = s + d /\
    nValue change_out + nValue dest_out + f = deposit_nValue self.
Proof.
  pose proof (make_payment_tx_funded self d f s nonce Hs Hd Hchange)
    as Hmake.
  rewrite Hout, Hchange64, Hdest64 in Hmake. cbn [andb] in Hmake.
  rewrite send_payment_unfold, Hmake. cbn [fst].
  eexists _, _, _.
  do 5 (split; [reflexivity|]).
  cbn. lia.
Qed.

(** C4 (as amended).  A payment transaction returned by
    [make_payment_tx] or [send_payment] has one input, spending the
    deposit outpoint, with the sequence number 0xFFFFFFFF (the final
    value); two outputs, the change to the sender's change script
    first and the payment to the receiver's destination script
    second; and lock-time 0. *)
Theorem payment_tx_layout (self : t) (d f : Z) (nonce : bytes)
    (tx : CTransaction)
    (Hok : fst (make_payment_tx d f nonce self) = Ok tx \/
           fst (send_payment d f nonce self) = Ok tx) :
  (exists txin,
      vin tx = [txin] /\
      prevout txin = MicropaymentParams.deposit_outpoint (params self) /\
      nSequence txin = 0xFFFFFFFF) /\
  (exists change_out dest_out,
      vout tx = [change_out; dest_out] /\
      scriptPubKey change_out = sender_change_scriptPubKey self /\
      scriptPubKey dest_out =
        MicropaymentParams.receiver_dest_scriptPubKey (params self)) /\
  nLockTime tx = 0.
Proof.
  assert (Hmake : fst (make_payment_tx d f nonce self) = Ok tx).
  { destruct Hok as [Hm|Hsend]; [exact Hm|].
    rewrite send_payment_unfold in Hsend.
    destruct (fst (make_payment_tx d f nonce self)) as [tx'|e];
      cbn in Hsend; [exact Hsend | discriminate Hsend]. }
  destruct (make_payment_tx_inv self d f nonce tx Hmake)
    as (s & sig & _ & _ & _ & -> & _).
  cbn. repeat split; eauto.
Qed.

(** C6.  With the deposit outpoint's index, the expiry lock-time and
    [deposit_nValue - fee] within the ranges of the serialized format,
    [make_refund_tx fee] returns a transaction with one input spending
    the deposit outpoint with sequence number 0, one output of
    [deposit_nValue - fee] to the sender's change script, and lock-time
    [expiry_nlocktime], and leaves the sender as it was.  Whatever
    [last_payment_tx] holds, in particular after any sequence of
    [send_payment] calls, the refund is that same transaction, signed
    with the same key over the same digest: two refunds differ at most
    in the nonce their signatures drew. *)
Theorem make_refund_tx_independent (self : t) (fee : Z) (nonce : bytes)
    (Hout : is_uint32
              (op_n (MicropaymentParams.deposit_outpoint (params self)))
            = true)
    (Hexpiry : is_uint32 (MicropaymentParams.expiry_nlocktime (params self))
               = true)
    (Hvalue : is_int64 (deposit_nValue self - fee) = true) :
  let redeemScript :=
    MicropaymentParams.deposit_redeemScript (params self) in
  let unsigned_tx :=
    mkCTransaction
      [mkCTxIn (MicropaymentParams.deposit_outpoint (params self)) [] 0]
      [mkCTxOut (deposit_nValue self - fee)
                (sender_change_scriptPubKey self)]
      (MicropaymentParams.expiry_nlocktime (params self)) 1 in
  let sig := fun drawn : bytes =>
    ecdsa_sign (sender_seckey self)
      (sighash_digest redeemScript unsigned_tx 0 SIGHASH_ALL) drawn
    ++ [x01] in
  let refund := fun drawn : bytes =>
    mkCTransaction
      [mkCTxIn (MicropaymentParams.deposit_outpoint (params self))
               [SData (sig drawn); SInt 0; SScript redeemScript]
               0]
      [mkCTxOut (deposit_nValue self - fee)
                (sender_change_scriptPubKey self)]
      (MicropaymentParams.expiry_nlocktime (params self))
      1 in
  make_refund_tx fee nonce self = (Ok (refund nonce), self) /\
  (forall tx nonce',
      fst (make_refund_tx fee nonce' (storing tx self))
        = Ok (refund nonce')) /\
  (forall calls nonce',
      fst (make_refund_tx fee nonce' (Calls.send_all calls self))
        = Ok (refund nonce')).
Proof.
  cbv zeta. split; [|split].
  - exact (make_refund_tx_returns self fee nonce Hout Hexpiry Hvalue).
  - intros tx nonce'.
    rewrite (make_refund_tx_returns (storing tx self) fee nonce'
               Hout Hexpiry Hvalue).
    reflexivity.
  - intros calls nonce'.
    destruct (send_all_frame calls self) as (Hp & Hv & Hk & Hc).
    rewrite (make_refund_tx_returns (Calls.send_all calls self) fee nonce').
    + cbn [fst]. rewrite Hp, Hv, Hk, Hc. reflexivity.
    + rewrite Hp. exact Hout.
    + rewrite Hp. exact Hexpiry.
    + rewrite Hv. exact Hvalue.
Qed.

(** C7.  [make_payment_tx] never changes the sender; [send_payment]
    changes it (storing the new transaction) only when
    [make_payment_tx] has returned one, and leaves it untouched when
    it raises.  With total sent [s]: [NegativeAmount] is raised
    exactly when [d < 0] and [InsufficientFunds] exactly when [d >= 0]
    and [D - s - d - f < 0]; in the remaining case, [d >= 0] and
    [D - s - d - f >= 0], a transaction is returned, provided the
    deposit outpoint's index and the two output values are within the
    ranges of the serialized format, and [struct.error] is raised if
    they are not. *)
Theorem make_payment_tx_failures (self : t) (d f : Z) (nonce : bytes) :
  snd (make_payment_tx d f nonce self) = self /\
  (forall e, fst (send_payment d f nonce self) = Raise e ->
             fst (make_payment_tx d f nonce self) = Raise e /\
             snd (send_payment d f nonce self) = self) /\
  (forall tx, fst (send_payment d f nonce self) = Ok tx ->
              fst (make_payment_tx d f nonce self) = Ok tx /\
              snd (send_payment d f nonce self) = storing tx self /\
              last_payment_tx (snd (send_payment d f nonce self))
                = Some tx) /\
  (forall s, total_sent self = Ok s ->
     let fits :=
       is_uint32 (op_n (MicropaymentParams.deposit_outpoint (params self)))
       && is_int64 (deposit_nValue self - s - d - f)
       && is_int64 (s + d) in
     (fst (make_payment_tx d f nonce self) = Raise NegativeAmount
        <-> d < 0) /\
     (fst (make_payment_tx d f nonce self) = Raise InsufficientFunds <->
        0 <= d /\ deposit_nValue self - s - d - f < 0) /\
     (fits = true ->
        ((exists tx, fst (make_payment_tx d f nonce self) = Ok tx) <->
           0 <= d /\ 0 <= deposit_nValue self - s - d - f)) /\
     (fst (make_payment_tx d f nonce self) = Raise StructError <->
        0 <= d /\ 0 <= deposit_nValue self - s - d - f /\ fits = false)).
Proof.
  split; [apply make_payment_tx_pure | split; [|split]].
  - intros e. rewrite send_payment_unfold.
    destruct (fst (make_payment_tx d f nonce self)) as [tx|e'];
      cbn; intros Hr; [discriminate Hr|]. auto.
  - intros tx. rewrite send_payment_unfold.
    destruct (fst (make_payment_tx d f nonce self)) as [tx'|e'];
      cbn; intros Hr; [|discriminate Hr].
    injection Hr as ->. auto.
  - intros s Hs. cbv zeta.
    destruct (Z.lt_ge_cases d 0) as [Hneg|Hd].
    { rewrite make_payment_tx_negative by assumption.
      unfold NegativeAmount, InsufficientFunds. cbn [fst].
      split; [split; [intros _; exact Hneg | reflexivity] |].
      split; [split; [intros Hr; discriminate Hr | intros [Hge _]; lia] |].
      split; [intros _; split;
                [intros (tx & Hr); discriminate Hr | intros [Hge _]; lia] |].
      split; [intros Hr; discriminate Hr | intros [Hge _]; lia]. }
    destruct (Z.lt_ge_cases (deposit_nValue self - s - d - f) 0)
      as [Hlow|Hchange].
    { rewrite (make_payment_tx_insufficient self d f s) by assumption.
      unfold NegativeAmount, InsufficientFunds. cbn [fst].
      split; [split; [intros Hr; discriminate Hr | intros Hlt; lia] |].
      split; [split; [intros _; split; assumption | reflexivity] |].
      split; [intros _; split;
                [intros (tx & Hr); discriminate Hr | intros [_ Hge]; lia] |].
      split; [intros Hr; discriminate Hr | intros (_ & Hge & _); lia]. }
    rewrite (make_payment_tx_funded self d f s nonce Hs Hd Hchange).
    cbn [fst].
    destruct (is_uint32 _ && is_int64 _ && is_int64 _).
    + split; [split; [intros Hr; discriminate Hr | intros Hlt; lia] |].
      split; [split; [intros Hr; discriminate Hr | intros [_ Hlt]; lia] |].
      split; [intros _; split;
                [intros _; split; assumption
                | intros _; eexists; reflexivity] |].
      split; [intros Hr; discriminate Hr | intros (_ & _ & Hf); discriminate Hf].
    + split; [split; [intros Hr; discriminate Hr | intros Hlt; lia] |].
      split; [split; [intros Hr; discriminate Hr | intros [_ Hlt]; lia] |].
      split; [intros Hf; discriminate Hf|].
      split; [intros _; repeat split; assumption | reflexivity].
Qed.

(** C8.  [total_sent] is read off [last_payment_tx]: 0 when there is
    none, the payment value of the stored transaction otherwise.  A
    [send_payment d f] that returns was given [d >= 0] and moves
    [total_sent] from [s] to [s + d]; over any sequence of
    [send_payment] calls, failed ones included, [total_sent] never
    decreases. *)
Theorem total_sent_derived_and_monotone (self : t) :
  total_sent self =
    match last_payment_tx self with
    | None => Ok 0
    | Some tx => calc_payment_value tx
    end /\
  (forall d f nonce tx,
      fst (send_payment d f nonce self) = Ok tx ->
      exists s,
        total_sent self = Ok s /\
        0 <= d /\
        total_sent (snd (send_payment d f nonce self)) = Ok (s + d)) /\
  (forall calls s,
      total_sent self = Ok s ->
      exists s',
        total_sent (Calls.send_all calls self) = Ok s' /\ s <= s').
Proof.
  split; [reflexivity | split].
  - intros d f nonce tx. rewrite send_payment_unfold.
    destruct (fst (make_payment_tx d f nonce self)) as [tx'|e] eqn:Hmake;
      cbn; intros Hr; [|discriminate Hr].
    destruct (make_payment_tx_inv self d f nonce tx' Hmake)
      as (s & sig & Hs & Hd & _ & -> & _).
    exists s. repeat split; assumption.
  - intros calls s Hs. exact (send_all_total_sent calls self s Hs).
Qed.

End WithSigning.

(** The first payment of the test run: 5000000 out of 10000000 at a
    fee of 100000. *)
Lemma make_payment_tx_conserves_balance_witness :
  total_sent Demo.send_side = Ok 0 /\
  0 <= 5000000 /\
  0 <= 10000000 - 0 - 5000000 - 100000 /\
  is_uint32 (op_n Demo.deposit_outpoint) = true /\
  is_int64 (10000000 - 0 - 5000000 - 100000) = true /\
  is_int64 (0 + 5000000) = true /\
  exists tx change_out dest_out,
    fst (make_payment_tx 5000000 100000 Demo.nonce1 Demo.send_side)
      = Ok tx /\
    vout tx = [change_out; dest_out] /\
    nValue change_out = 4900000 /\
    nValue dest_out = 5000000.
Proof.
  assert (Hs : total_sent Demo.send_side = Ok 0) by reflexivity.
  assert (Hd : 0 <= 5000000) by lia.
  assert (Hc : 0 <= deposit_nValue Demo.send_side - 0 - 5000000 - 100000)
    by (change (0 <= 10000000 - 0 - 5000000 - 100000); lia).
  split; [exact Hs | split; [exact Hd | split; [exact Hc|]]].
  split; [reflexivity | split; [reflexivity | split; [reflexivity|]]].
  destruct (make_payment_tx_conserves_balance
              Demo.send_side 5000000 100000 0 Demo.nonce1 Hs Hd Hc
              eq_refl eq_refl eq_refl)
    as (tx & change_out & dest_out & Hmake & _ & Hvout & Hcv & Hdv & _).
  exists tx, change_out, dest_out.
  split; [exact Hmake | split; [exact Hvout | split]].
  - exact Hcv.
  - exact Hdv.
Defined.

Lemma payment_tx_layout_witness :
  exists tx,
    fst (make_payment_tx 1 100000 Demo.nonce1 Demo.send_side) = Ok tx /\
    (exists txin, vin tx = [txin] /\
                  prevout txin = Demo.deposit_outpoint /\
                  nSequence txin = 0xFFFFFFFF) /\
    nLockTime tx = 0.
Proof.
  eexists. split; [reflexivity|].
  destruct (payment_tx_layout Demo.send_side 1 100000 Demo.nonce1 _
              (or_introl eq_refl)) as (Hin & _ & Hlock).
  split; [exact Hin | exact Hlock].
Defined.

(** C4 as stated fails: the input of the payment the sender makes
    carries the final sequence number. *)
Lemma payment_tx_sequence_is_final :
  exists tx,
    fst (make_payment_tx 1 100000 Demo.nonce1 Demo.send_side) = Ok tx /\
    ~ Spec.payment_transaction Demo.channel_params
        Demo.sender_change_scriptPubKey tx.
Proof.
  eexists. split; [reflexivity|].
  intros [(txin & Hvin & _ & Hseq) _].
  cbn in Hvin. injection Hvin as <-.
  apply Hseq. reflexivity.
Qed.

(** The refund of the test run, before and after its two payments. *)
Lemma make_refund_tx_independent_witness :
  is_uint32 (op_n Demo.deposit_outpoint) = true /\
  is_uint32 1000000000 = true /\
  is_int64 (10000000 - 100000) = true /\
  exists refund_tx refund_tx',
    make_refund_tx 100000 Demo.nonce1 Demo.send_side
      = (Ok refund_tx, Demo.send_side) /\
    fst (make_refund_tx 100000 Demo.nonce1
           (Calls.send_all
              [Calls.mkcall 5000000 100000 Demo.nonce1;
               Calls.mkcall 1 100000 Demo.nonce2] Demo.send_side))
      = Ok refund_tx' /\
    refund_tx' = refund_tx /\
    map nValue (vout refund_tx) = [9900000].
Proof.
  split; [reflexivity | split; [reflexivity | split; [reflexivity|]]].
  destruct (make_refund_tx_independent Demo.send_side 100000 Demo.nonce1
              eq_refl eq_refl eq_refl) as (Hnow & _ & Hlater).
  eexists _, _. split; [exact Hnow|].
  split; [exact (Hlater _ Demo.nonce1)|].
  split; reflexivity.
Defined.

Lemma make_payment_tx_failures_witness :
  total_sent Demo.send_side = Ok 0 /\
  fst (make_payment_tx (-1) 100000 Demo.nonce1 Demo.send_side)
    = Raise NegativeAmount /\
  fst (make_payment_tx 10000000 100000 Demo.nonce1 Demo.send_side)
    = Raise InsufficientFunds /\
  snd (send_payment 10000000 100000 Demo.nonce1 Demo.send_side)
    = Demo.send_side /\
  (exists tx,
     fst (make_payment_tx 5000000 100000 Demo.nonce1 Demo.send_side)
       = Ok tx).
Proof.
  assert (Hs : total_sent Demo.send_side = Ok 0) by reflexivity.
  split; [exact Hs|].
  destruct (make_payment_tx_failures Demo.send_side (-1) 100000 Demo.nonce1)
    as (_ & _ & _ & Hneg).
  destruct (Hneg 0 Hs) as ((_ & Hraise) & _).
  split; [apply Hraise; lia|].
  destruct (make_payment_tx_failures Demo.send_side 10000000 100000
              Demo.nonce1) as (_ & Hsend & _ & Hlow).
  destruct (Hlow 0 Hs) as (_ & (_ & Hraise') & _).
  split;
    [apply Hraise';
     change (0 <= 10000000 /\ 10000000 - 0 - 10000000 - 100000 < 0); lia|].
  split; [exact (proj2 (Hsend InsufficientFunds eq_refl))|].
  destruct (make_payment_tx_failures Demo.send_side 5000000 100000
              Demo.nonce1) as (_ & _ & _ & Hok).
  destruct (Hok 0 Hs) as (_ & _ & Hreturns & _).
  apply (Hreturns eq_refl).
  change (0 <= 5000000 /\ 0 <= 10000000 - 0 - 5000000 - 100000). lia.
Defined.

(** The two payments of the test run: 5000000, then 1. *)
Lemma total_sent_derived_and_monotone_witness :
  (exists tx,
     fst (send_payment 5000000 100000 Demo.nonce1 Demo.send_side) = Ok tx) /\
  total_sent (snd (send_payment 5000000 100000 Demo.nonce1 Demo.send_side))
    = Ok 5000000 /\
  total_sent
    (Calls.send_all
       [Calls.mkcall 5000000 100000 Demo.nonce1;
        Calls.mkcall 1 100000 Demo.nonce2] Demo.send_side)
    = Ok 5000001.
Proof.
  split; [eexists; reflexivity|].
  destruct (total_sent_derived_and_monotone Demo.send_side)
    as (_ & Hstep & Hall).
  destruct (Hstep 5000000 100000 Demo.nonce1 _ eq_refl)
    as (s & Hs & _ & Hnew).
  injection Hs as <-.
  split; [exact Hnew|].
  destruct (Hall [Calls.mkcall 5000000 100000 Demo.nonce1;
                  Calls.mkcall 1 100000 Demo.nonce2] 0 eq_refl)
    as (s' & Hs' & _).
  reflexivity.
Defined.

End SenderClaims.

(** ** hodl: the spending transaction and its fee *)
Module HodlFacts.
Import Hodl.

Lemma tx_size_linear (n : nat) : tx_size n = 45 + 153 * Z.of_nat n.
Proof. unfold tx_size. lia. Qed.

Lemma effective_feerate_given (feerate : Z) :
  0 < feerate -> effective_feerate feerate = feerate.
Proof.
  intros Hpos. unfold effective_feerate.
  destruct (feerate <=? 0) eqn:E; [apply Z.leb_le in E; lia | reflexivity].
Qed.

Lemma effective_feerate_floor (feerate : Z) :
  feerate <= 0 -> effective_feerate feerate = 10000.
Proof.
  intros Hle. unfold effective_feerate.
  destruct (feerate <=? 0) eqn:E; [reflexivity | apply Z.leb_gt in E; lia].
Qed.

(** The unsigned inputs: the constructor accepts sequence number 0. *)
Lemma unsigned_inputs (prevouts : list (COutPoint * CTxOut)) :
  traverse (fun p : COutPoint * CTxOut => new_CTxIn (fst p) [] 0) prevouts
  = Ok (map (fun p : COutPoint * CTxOut => mkCTxIn (fst p) [] 0) prevouts).
Proof.
  induction prevouts as [|p ps IH]; [reflexivity|].
  cbn [traverse map]. rewrite IH. reflexivity.
Qed.

Lemma unsigned_inputs_serializable (prevouts : list (COutPoint * CTxOut)) :
  forallb (fun p : COutPoint * CTxOut => is_uint32 (op_n (fst p))) prevouts
    = true ->
  forallb serializable_txin
    (map (fun p : COutPoint * CTxOut => mkCTxIn (fst p) [] 0) prevouts)
    = true.
Proof.
  induction prevouts as [|p ps IH]; [reflexivity|].
  cbn [forallb map]. intros Hall.
  apply andb_true_iff in Hall as [Hp Hps].
  rewrite (IH Hps). unfold serializable_txin. cbn [prevout nSequence].
  rewrite Hp. reflexivity.
Qed.

Section WithSigning.
Context `{SigningService}.

(** Signing the inputs of a serializable [unsigned_tx] from position
    [k] on cannot raise: every index enumerated is an input of
    [unsigned_tx]. *)
Lemma sign_inputs (privkey : bytes) (lock : Z) (nonces : nat -> bytes)
    (unsigned_tx : CTransaction) (txins : list CTxIn) :
  serializable unsigned_tx = true ->
  forall k : nat,
    (k + length txins <= length (vin unsigned_tx))%nat ->
    traverse
      (fun it : nat * CTxIn =>
         and_then
           (spend_hodl_redeemScript privkey lock unsigned_tx (fst it)
              (nonces (fst it)))
           (fun sig_script => new_CTxIn (prevout (snd it)) sig_script 0))
      (combine (seq k (length txins)) txins)
    = Ok (map
            (fun it : nat * CTxIn =>
               mkCTxIn (prevout (snd it))
                 [SData (ecdsa_sign privkey
                           (sighash_digest (hodl_redeemScript privkey lock)
                              unsigned_tx (fst it) SIGHASH_ALL)
                           (nonces (fst it))
                         ++ [x01]);
                  SScript (hodl_redeemScript privkey lock)]
                 0)
            (combine (seq k (length txins)) txins)).
Proof.
  intros Hser.
  induction txins as [|txin txins IH]; intros k Hk; [reflexivity|].
  cbn [length] in Hk.
  cbn [length seq combine traverse map fst snd].
  unfold spend_hodl_redeemScript at 1, SignatureHash.
  destruct (Nat.ltb_spec k (length (vin unsigned_tx))) as [_|Hge]; [|lia].
  rewrite (FinalizationFacts.hashed_part_all unsigned_tx k), Hser.
  cbn [and_then]. rewrite (IH (S k)) by lia. reflexivity.
Qed.

(** [spend_command] returns once the fee is computed, the lock-time is
    one the constructor accepts and the unsigned transaction can be
    serialized. *)
Lemma spend_command_returns (privkey : bytes) (lock : Z)
    (prevouts : list (COutPoint * CTxOut)) (feerate : Z)
    (addr_scriptPubKey : CScript) (nonces : nat -> bytes) (fee : Z) :
  fees (length prevouts) feerate = Ok fee ->
  is_uint32 lock = true ->
  forallb (fun p : COutPoint * CTxOut => is_uint32 (op_n (fst p))) prevouts
    = true ->
  is_int64 (sum_in prevouts - fee) = true ->
  let unsigned_tx :=
    mkCTransaction
      (map (fun p : COutPoint * CTxOut => mkCTxIn (fst p) [] 0) prevouts)
      [mkCTxOut (sum_in prevouts - fee) addr_scriptPubKey]
      lock 1 in
  spend_command privkey lock prevouts feerate addr_scriptPubKey nonces =
    Ok (mkCTransaction
          (map
             (fun it : nat * CTxIn =>
                mkCTxIn (prevout (snd it))
                  [SData (ecdsa_sign privkey
                            (sighash_digest (hodl_redeemScript privkey lock)
                               unsigned_tx (fst it) SIGHASH_ALL)
                            (nonces (fst it))
                          ++ [x01]);
                   SScript (hodl_redeemScript privkey lock)]
                  0)
             (enumerate (vin unsigned_tx)))
          [mkCTxOut (sum_in prevouts - fee) addr_scriptPubKey]
          lock 1).
Proof.
  intros Hfee Hlock Hprev Hval. cbv zeta.
  unfold spend_command. rewrite Hfee. cbn [and_then].
  rewrite unsigned_inputs. cbn [and_then].
  unfold new_CTransaction at 1. rewrite Hlock. cbn [and_then].
  set (unsigned_tx := mkCTransaction _ _ _ _).
  assert (Hser : serializable unsigned_tx = true).
  { unfold serializable, unsigned_tx. cbn [nVersion vin vout bitcoin.nLockTime].
    rewrite (unsigned_inputs_serializable prevouts Hprev), Hlock.
    unfold serializable_txout. cbn [forallb nValue]. rewrite Hval.
    reflexivity. }
  unfold enumerate.
  rewrite (sign_inputs privkey lock nonces unsigned_tx (vin unsigned_tx)
             Hser 0%nat) by lia.
  cbn [and_then]. unfold new_CTransaction.
  cbn [bitcoin.nLockTime unsigned_tx vout]. rewrite Hlock. reflexivity.
Qed.

End WithSigning.
End HodlFacts.

Module HodlClaims.
Import Hodl.

(** C9 (the code departs from the claim).  The fee is computed in
    binary64 arithmetic and truncated.  For eight inputs the size is
    1269 bytes; at the floor rate 10000 (the node had no estimate and
    the supplied rate was -100000000) the product 1.269 * 10000 is
    rounded below 12690, so the code charges 12689 where
    floor(size/1000 * rate) is 12690, and the single output is worth
    the inputs' sum minus 12689.  The same happens at a supplied
    positive rate, e.g. two inputs at 11000. *)
Theorem fees_truncates_rounded_product :
  tx_size 8 = 1269 /\
  effective_feerate (-100000000) = 10000 /\
  fees 8 (-100000000) = Ok 12689 /\
  Spec.estimateFee 8 (-100000000) = 12690 /\
  fees 2 11000 = Ok 3860 /\
  Spec.estimateFee 2 11000 = 3861 /\
  exists signed_vin,
    spend_command Demo.sender_seckey 500000 Demo.hodl_prevouts
                  (-100000000) Demo.receiver_dest_scriptPubKey
                  (fun _ => Demo.nonce1)
      = Ok (mkCTransaction signed_vin
              [mkCTxOut (800000 - 12689) Demo.receiver_dest_scriptPubKey]
              500000 1).
Proof.
  repeat (split; [vm_compute; reflexivity|]).
  eexists. vm_compute. reflexivity.
Qed.

End HodlClaims.


(** * Further properties of the code *)

(** ** The receiver's update *)
Module ReceiverUpdate.
Import MicropaymentChannel ReceiverMicropaymentChannel ReceiverFacts.

(** The three outcomes of a call. *)
Lemma recv_cases (tx : CTransaction) (self : t) :
  (exists e, recv_payment_tx tx self = (Raise e, self)) \/
  (exists d, recv_payment_tx tx self = (Ok d, self) /\ d <= 0 /\
             last_payment_tx self <> None) \/
  (exists d, recv_payment_tx tx self = (Ok d, storing tx self) /\
             calc_payment_value tx = Ok d /\ last_payment_tx self = None) \/
  (exists d, recv_payment_tx tx self = (Ok d, storing tx self) /\ 0 < d /\
             last_payment_tx self <> None).
Proof.
  unfold recv_payment_tx, validate_payment_tx, assign_last_payment_tx.
  unfold_meth.
  destruct (calc_payment_value tx) as [v|e]; [|left; eauto].
  destruct (last_payment_tx self) as [last|] eqn:Hlast.
  - destruct (calc_payment_value last) as [vl|e]; [|left; eauto].
    destruct (0 <? v - vl) eqn:Hd.
    + apply Z.ltb_lt in Hd. right; right; right.
      exists (v - vl). repeat split; [assumption | discriminate].
    + apply Z.ltb_ge in Hd. right; left.
      exists (v - vl). repeat split; [assumption | discriminate].
  - right; right; left. exists v. repeat split.
Qed.

(** X1.  [recv_payment_tx] is all or nothing: a call that raises leaves
    the receiver as it was; a call that returns leaves it as it was or
    with the submitted transaction stored; and no call touches the
    parameters, the deposit value or the secret key. *)
Theorem recv_payment_tx_all_or_nothing (tx : CTransaction) (self : t) :
  (forall e, fst (recv_payment_tx tx self) = Raise e ->
             snd (recv_payment_tx tx self) = self) /\
  (snd (recv_payment_tx tx self) = self \/
   snd (recv_payment_tx tx self) = storing tx self) /\
  params (snd (recv_payment_tx tx self)) = params self /\
  deposit_nValue (snd (recv_payment_tx tx self)) = deposit_nValue self /\
  receiver_seckey (snd (recv_payment_tx tx self)) = receiver_seckey self.
Proof.
  destruct (recv_cases tx self)
    as [(e & ->) | [(d & -> & _) | [(d & -> & _) | (d & -> & _)]]];
    cbn [fst snd]; repeat split; auto; intros e' [=].
Qed.

Lemma recv_payment_tx_all_or_nothing_witness :
  fst (recv_payment_tx Demo.one_output_tx Demo.recv_side_paid)
    = Raise IndexError /\
  snd (recv_payment_tx Demo.one_output_tx Demo.recv_side_paid)
    = Demo.recv_side_paid.
Proof.
  split; [reflexivity|].
  exact (proj1 (recv_payment_tx_all_or_nothing
                  Demo.one_output_tx Demo.recv_side_paid)
           IndexError eq_refl).
Defined.

(** X2.  Whenever the submitted transaction's value [v] and the
    receiver's [total_sent] [s] are both defined, the number returned is
    [v - s], in the first call as in every later one. *)
Theorem recv_payment_tx_returns_difference
    (tx : CTransaction) (self : t) (v s : Z)
    (Hv : calc_payment_value tx = Ok v)
    (Hs : total_sent self = Ok s) :
  fst (recv_payment_tx tx self) = Ok (v - s).
Proof.
  unfold total_sent in Hs.
  destruct (last_payment_tx self) as [last|] eqn:Hlast.
  - rewrite (recv_next tx last v s self Hv Hlast Hs). reflexivity.
  - injection Hs as <-. rewrite (recv_first tx v self Hv Hlast).
    cbn [fst]. f_equal. lia.
Qed.

Lemma recv_payment_tx_returns_difference_witness :
  calc_payment_value Demo.mistargeted_tx = Ok 1 /\
  total_sent Demo.recv_side_paid = Ok 5000001 /\
  fst (recv_payment_tx Demo.mistargeted_tx Demo.recv_side_paid)
    = Ok (1 - 5000001).
Proof.
  split; [reflexivity | split; [reflexivity|]].
  exact (recv_payment_tx_returns_difference
           Demo.mistargeted_tx Demo.recv_side_paid 1 5000001
           eq_refl eq_refl).
Defined.

(** X3.  Submitting again a transaction that [recv_payment_tx] has just
    returned for changes nothing: the second call returns too, with a
    delta that is not positive, and the receiver stays as the first call
    left it. *)
Theorem recv_payment_tx_resubmission (tx : CTransaction) (self : t) (d : Z)
    (Hfirst : fst (recv_payment_tx tx self) = Ok d) :
  exists d',
    recv_payment_tx tx (snd (recv_payment_tx tx self))
      = (Ok d', snd (recv_payment_tx tx self)) /\
    d' <= 0.
Proof.
  destruct (recv_cases tx self)
    as [(e & Hr) | [(d0 & Hr & Hle & _) | [(d0 & Hr & Hv & _) | Hr]]].
  - rewrite Hr in Hfirst. discriminate Hfirst.
  - rewrite Hr. cbn [snd]. exists d0. split; [exact Hr | exact Hle].
  - rewrite Hr. cbn [snd]. exists 0.
    rewrite (recv_next tx tx d0 d0 (storing tx self) Hv eq_refl Hv).
    rewrite Z.sub_diag. cbn. split; [reflexivity | lia].
  - destruct Hr as (d0 & Hr & Hpos & _). rewrite Hr. cbn [snd].
    assert (Hv : exists v, calc_payment_value tx = Ok v).
    { revert Hr. unfold recv_payment_tx, validate_payment_tx. unfold_meth.
      destruct (calc_payment_value tx) as [v|e]; [eauto | intros [=]]. }
    destruct Hv as (v & Hv). exists 0.
    rewrite (recv_next tx tx v v (storing tx self) Hv eq_refl Hv).
    rewrite Z.sub_diag. cbn. split; [reflexivity | lia].
Qed.

Lemma recv_payment_tx_resubmission_witness :
  fst (recv_payment_tx (Demo.payment 4899998 5000002 [x02])
         Demo.recv_side_paid) = Ok 1 /\
  exists d',
    fst (recv_payment_tx (Demo.payment 4899998 5000002 [x02])
           (snd (recv_payment_tx (Demo.payment 4899998 5000002 [x02])
                   Demo.recv_side_paid))) = Ok d' /\
    d' <= 0.
Proof.
  split; [reflexivity|].
  destruct (recv_payment_tx_resubmission
              (Demo.payment 4899998 5000002 [x02]) Demo.recv_side_paid 1
              eq_refl) as (d' & Hsecond & Hle).
  exists d'. split; [rewrite Hsecond; reflexivity | exact Hle].
Defined.

End ReceiverUpdate.

(** ** The receiver over a sequence of submissions *)
Module ReceiverHistory.
Import MicropaymentChannel ReceiverMicropaymentChannel ReceiverFacts.
Import Calls.

Lemma valued_step (tx : CTransaction) (self : t) :
  valued self -> valued (snd (recv_payment_tx tx self)).
Proof.
  intros Hwf.
  destruct (ReceiverUpdate.recv_cases tx self)
    as [(e & ->) | [(d & -> & _) | [(d & -> & Hv & _) | (d & Hr & _)]]];
    cbn [snd]; try exact Hwf.
  - intros last [= <-]. eauto.
  - rewrite Hr. cbn [snd]. intros last [= <-].
    revert Hr. unfold recv_payment_tx, validate_payment_tx. unfold_meth.
    destruct (calc_payment_value tx) as [v|e]; [eauto | intros [=]].
Qed.

Lemma valued_all (txs : list CTransaction) :
  forall self, valued self -> valued (Calls.recv_all txs self).
Proof.
  induction txs as [|tx txs IH]; intros self Hwf; [exact Hwf|].
  cbn [Calls.recv_all fold_left]. apply IH, valued_step, Hwf.
Qed.

(** After a call on [tx], the stored payment is worth at least [tx] and
    is [tx] or the payment stored before. *)
Lemma recv_step_covers (tx : CTransaction) (v : Z) (self : t) :
  valued self ->
  calc_payment_value tx = Ok v ->
  exists last' v',
    last_payment_tx (snd (recv_payment_tx tx self)) = Some last' /\
    calc_payment_value last' = Ok v' /\
    v <= v' /\
    (last' = tx \/ last_payment_tx self = Some last').
Proof.
  intros Hwf Hv.
  destruct (last_payment_tx self) as [last|] eqn:Hlast.
  - destruct (Hwf last Hlast) as (vl & Hvl).
    rewrite (recv_next tx last v vl self Hv Hlast Hvl). cbn [snd].
    destruct (0 <? v - vl) eqn:Hd.
    + exists tx, v. cbn. repeat split; [assumption | lia | auto].
    + apply Z.ltb_ge in Hd. exists last, vl.
      repeat split; [assumption | assumption | lia | auto].
  - rewrite (recv_first tx v self Hv Hlast). cbn [snd].
    exists tx, v. cbn. repeat split; [assumption | lia | auto].
Qed.

(** The stored payment after a sequence is the one stored before or one
    of the sequence, and is worth at least the one stored before. *)
Lemma recv_all_origin (txs : list CTransaction) :
  forall (self : t) (last : CTransaction) (v_last : Z),
    last_payment_tx self = Some last ->
    calc_payment_value last = Ok v_last ->
    exists last' v',
      last_payment_tx (Calls.recv_all txs self) = Some last' /\
      calc_payment_value last' = Ok v' /\
      v_last <= v' /\
      (last' = last \/ In last' txs).
Proof.
  induction txs as [|tx txs IH]; intros self last v_last Hlast Hvl.
  - exists last, v_last. repeat split; [assumption | assumption | lia | auto].
  - cbn [Calls.recv_all fold_left].
    assert (Hstep : exists l1 v1,
               last_payment_tx (snd (recv_payment_tx tx self)) = Some l1 /\
               calc_payment_value l1 = Ok v1 /\ v_last <= v1 /\
               (l1 = last \/ l1 = tx)).
    { destruct (ReceiverUpdate.recv_cases tx self)
        as [(e & ->) | [(d & -> & _) | [(d & _ & _ & Hn) | (d & Hr & Hpos & _)]]];
        cbn [snd].
      - exists last, v_last. repeat split; [assumption | assumption | lia | auto].
      - exists last, v_last. repeat split; [assumption | assumption | lia | auto].
      - rewrite Hn in Hlast. discriminate Hlast.
      - rewrite Hr. cbn [snd].
        destruct (calc_payment_value tx) as [v|e] eqn:Hv.
        + rewrite (recv_next tx last v v_last self Hv Hlast Hvl) in Hr.
          injection Hr as Hd _. exists tx, v. cbn.
          repeat split; [assumption | lia | auto].
        + exfalso. revert Hr.
          unfold recv_payment_tx, validate_payment_tx. unfold_meth.
          rewrite Hv. intros [=]. }
    destruct Hstep as (l1 & v1 & Hl1 & Hv1 & Hle1 & Hor1).
    destruct (IH _ l1 v1 Hl1 Hv1) as (l2 & v2 & Hl2 & Hv2 & Hle2 & Hor2).
    exists l2, v2. repeat split; [exact Hl2 | exact Hv2 | lia |].
    destruct Hor2 as [-> | Hin]; [|right; right; exact Hin].
    destruct Hor1 as [-> | ->]; [left | right; left]; reflexivity.
Qed.

(** X4.  The receiver keeps the best payment it was shown.  Starting
    from a receiver whose stored payment (if any) has a value, after any
    sequence of [recv_payment_tx] calls the stored payment is worth at
    least as much as every submitted transaction that has a value, and
    it is one of the submitted transactions or the payment stored at the
    start. *)
Theorem recv_all_keeps_highest (txs : list CTransaction) (self : t)
    (tx : CTransaction) (v : Z)
    (Hwf : valued self)
    (Hin : In tx txs)
    (Hv : calc_payment_value tx = Ok v) :
  exists last v',
    last_payment_tx (Calls.recv_all txs self) = Some last /\
    calc_payment_value last = Ok v' /\
    v <= v' /\
    (In last txs \/ last_payment_tx self = Some last).
Proof.
  revert self Hwf Hin.
  induction txs as [|tx0 txs IH]; intros self Hwf Hin; [destruct Hin|].
  cbn [Calls.recv_all fold_left].
  destruct Hin as [-> | Hin].
  - destruct (recv_step_covers tx v self Hwf Hv)
      as (l1 & v1 & Hl1 & Hv1 & Hle1 & Hor1).
    destruct (recv_all_origin txs _ l1 v1 Hl1 Hv1)
      as (l2 & v2 & Hl2 & Hv2 & Hle2 & Hor2).
    exists l2, v2. repeat split; [exact Hl2 | exact Hv2 | lia |].
    destruct Hor2 as [-> | Hin2]; [|left; right; exact Hin2].
    destruct Hor1 as [-> | Hold]; [left; left; reflexivity | right; exact Hold].
  - destruct (IH _ (valued_step tx0 self Hwf) Hin)
      as (l2 & v2 & Hl2 & Hv2 & Hle2 & Hor2).
    exists l2, v2. repeat split; [exact Hl2 | exact Hv2 | exact Hle2 |].
    destruct Hor2 as [Hin2 | Hst]; [left; right; exact Hin2|].
    destruct (ReceiverUpdate.recv_cases tx0 self)
      as [(e & Hr) | [(d & Hr & _) | [(d & Hr & _) | (d & Hr & _)]]];
      rewrite Hr in Hst; cbn [snd] in Hst.
    + right; exact Hst.
    + right; exact Hst.
    + left; left. cbn in Hst. injection Hst as <-. reflexivity.
    + left; left. cbn in Hst. injection Hst as <-. reflexivity.
Qed.

Lemma recv_all_keeps_highest_witness :
  valued Demo.recv_side /\
  In (Demo.payment 4899998 5000002 [x02])
     [Demo.payment 4899998 5000002 [x02]; Demo.mistargeted_tx;
      Demo.one_output_tx] /\
  calc_payment_value (Demo.payment 4899998 5000002 [x02]) = Ok 5000002 /\
  exists last v',
    last_payment_tx
      (Calls.recv_all
         [Demo.payment 4899998 5000002 [x02]; Demo.mistargeted_tx;
          Demo.one_output_tx] Demo.recv_side) = Some last /\
    calc_payment_value last = Ok v' /\
    5000002 <= v'.
Proof.
  assert (Hwf : valued Demo.recv_side) by (intros last [=]).
  assert (Hin : In (Demo.payment 4899998 5000002 [x02])
                   [Demo.payment 4899998 5000002 [x02];
                    Demo.mistargeted_tx; Demo.one_output_tx])
    by (left; reflexivity).
  split; [exact Hwf | split; [exact Hin | split; [reflexivity|]]].
  destruct (recv_all_keeps_highest _ Demo.recv_side _ 5000002
              Hwf Hin eq_refl) as (last & v' & Hl & Hv' & Hle & _).
  exists last, v'. split; [exact Hl | split; [exact Hv' | exact Hle]].
Defined.

(** X5.  A receiver that started with [init] never gets into a state in
    which [total_sent] raises: whatever transactions are submitted,
    malformed ones included, [total_sent] has a value afterwards. *)
Theorem recv_all_total_sent_defined (params : MicropaymentParams.t)
    (seckey : bytes) (deposit : Z) (txs : list CTransaction) :
  exists s,
    total_sent (Calls.recv_all txs (init params seckey deposit)) = Ok s.
Proof.
  assert (Hwf : valued (init params seckey deposit)) by (intros last [=]).
  pose proof (valued_all txs _ Hwf) as Hfinal.
  unfold total_sent.
  destruct (last_payment_tx (Calls.recv_all txs (init params seckey deposit)))
    as [last|] eqn:Hlast.
  - exact (Hfinal last Hlast).
  - exists 0. reflexivity.
Qed.

End ReceiverHistory.

(** ** Finalization *)
Module FinalizationProperties.
Import MicropaymentChannel ReceiverMicropaymentChannel.

Section WithSigning.
Context `{SigningService}.

(** X6.  [make_finalization_tx] never changes the receiver.  It raises
    when the stored transaction has no input, and raises
    [struct.error] when the stored transaction has inputs but cannot be
    serialized.  When the stored transaction has inputs and can be
    serialized, it returns a transaction with exactly one input, made
    from the first of them (same outpoint and sequence number; any
    further input is dropped), and with the stored transaction's
    outputs, lock-time and version. *)
Theorem make_finalization_tx_uses_first_input (self : t) (nonce : bytes) :
  snd (make_finalization_tx nonce self) = self /\
  (forall last,
     last_payment_tx self = Some last ->
     vin last = [] ->
     exists e, fst (make_finalization_tx nonce self) = Raise e) /\
  (forall last txin rest,
     last_payment_tx self = Some last ->
     vin last = txin :: rest ->
     serializable last = false ->
     fst (make_finalization_tx nonce self) = Raise StructError) /\
  (forall last txin rest,
     last_payment_tx self = Some last ->
     vin last = txin :: rest ->
     serializable last = true ->
     exists final txin',
       fst (make_finalization_tx nonce self) = Ok final /\
       vin final = [txin'] /\
       prevout txin' = prevout txin /\
       nSequence txin' = nSequence txin /\
       vout final = vout last /\
       nLockTime final = nLockTime last /\
       nVersion final = nVersion last).
Proof.
  split; [apply FinalizationFacts.make_finalization_tx_pure|].
  split; [|split].
  - intros last Hlast Hvin.
    unfold make_finalization_tx, SignatureHash. unfold_meth.
    rewrite Hlast, Hvin. cbn. eauto.
  - intros last txin rest Hlast Hvin Hser.
    unfold make_finalization_tx, SignatureHash. unfold_meth.
    rewrite Hlast, (FinalizationFacts.hashed_part_all last 0), Hser, Hvin.
    reflexivity.
  - intros last txin rest Hlast Hvin Hser.
    rewrite (FinalizationFacts.make_finalization_tx_returns nonce self last
               txin rest Hlast Hvin Hser).
    eexists _, _. split; [reflexivity|]. repeat split.
Qed.

End WithSigning.

Lemma make_finalization_tx_uses_first_input_witness :
  last_payment_tx Demo.recv_side_paid
    = Some (Demo.payment 4899999 5000001 [x01]) /\
  serializable (Demo.payment 4899999 5000001 [x01]) = true /\
  exists final,
    fst (make_finalization_tx Demo.nonce1 Demo.recv_side_paid) = Ok final /\
    map prevout (vin final) = [Demo.deposit_outpoint] /\
    vout final = vout (Demo.payment 4899999 5000001 [x01]).
Proof.
  split; [reflexivity | split; [reflexivity|]].
  destruct (make_finalization_tx_uses_first_input Demo.recv_side_paid
              Demo.nonce1) as (_ & _ & _ & Hsome).
  destruct (Hsome (Demo.payment 4899999 5000001 [x01])
                  (mkCTxIn Demo.deposit_outpoint [SData [x01]] 0xFFFFFFFF)
                  [] eq_refl eq_refl eq_refl)
    as (final & txin' & Hfinal & Hvin & Hprev & _ & Hvout & _).
  exists final. split; [exact Hfinal | split; [|exact Hvout]].
  rewrite Hvin. cbn [map]. rewrite Hprev. reflexivity.
Defined.

End FinalizationProperties.

(** ** Sender and receiver together *)
Module ChannelFlow.
Import MicropaymentChannel.
Import SenderMicropaymentChannel ReceiverMicropaymentChannel.

Section WithSigning.
Context `{SigningService}.

(** X7.  One payment end to end.  When [send_payment d f] returns [tx]
    and a receiver without a payment is given [tx], the receiver returns
    the sender's new total [s + d] and has [tx] as its last payment;
    finalizing then returns a transaction with the outputs of [tx] (so
    it pays the receiver [s + d]), lock-time 0, and one input that
    spends the sender's deposit outpoint with the final sequence number
    and carries four items: the sender's signature (its key, hash type
    0x81, over [tx] with the script emptied), the receiver's signature
    (its key, hash type 0x01, over [tx] as received), the selector 1 and
    the receiver's deposit script. *)
Theorem payment_received_and_finalized
    (send_side : SenderMicropaymentChannel.t)
    (recv_side : ReceiverMicropaymentChannel.t)
    (d f : Z) (nonce nonce' : bytes) (tx : CTransaction)
    (Hsend : fst (SenderMicropaymentChannel.send_payment d f nonce send_side)
               = Ok tx)
    (Hnone : last_payment_tx recv_side = None) :
  let outpoint := MicropaymentParams.deposit_outpoint (params send_side) in
  let sender_sig :=
    ecdsa_sign (sender_seckey send_side)
      (sighash_digest
         (MicropaymentParams.deposit_redeemScript (params send_side))
         (mkCTransaction [mkCTxIn outpoint [] 0xFFFFFFFF] (vout tx) 0 1)
         0 0x81)
      nonce
    ++ [x81] in
  let receiver_sig :=
    ecdsa_sign (receiver_seckey recv_side)
      (sighash_digest
         (MicropaymentParams.deposit_redeemScript (params recv_side))
         tx 0 SIGHASH_ALL)
      nonce'
    ++ [x01] in
  exists s final,
    total_sent send_side = Ok s /\
    ReceiverMicropaymentChannel.recv_payment_tx tx recv_side
      = (Ok (s + d), ReceiverMicropaymentChannel.storing tx recv_side) /\
    last_payment_tx (ReceiverMicropaymentChannel.storing tx recv_side)
      = Some tx /\
    ReceiverMicropaymentChannel.make_finalization_tx nonce'
      (ReceiverMicropaymentChannel.storing tx recv_side)
      = (Ok final, ReceiverMicropaymentChannel.storing tx recv_side) /\
    vout final = vout tx /\
    calc_payment_value final = Ok (s + d) /\
    nLockTime final = 0 /\
    vin final =
      [mkCTxIn outpoint
         [SData sender_sig; SData receiver_sig; SInt 1;
          SScript (MicropaymentParams.deposit_redeemScript
                     (params recv_side))]
         0xFFFFFFFF].
Proof.
  cbv zeta.
  rewrite SenderFacts.send_payment_unfold in Hsend.
  destruct (fst (SenderMicropaymentChannel.make_payment_tx d f nonce
                   send_side)) as [tx'|e] eqn:Hmake;
    cbn in Hsend; [|discriminate Hsend].
  injection Hsend as ->.
  destruct (SenderFacts.make_payment_tx_inv send_side d f nonce tx Hmake)
    as (s & sig & Hs & Hd & Hchange & _ & Hout & Hc64 & Hd64).
  rewrite (SenderFacts.make_payment_tx_funded send_side d f s nonce
             Hs Hd Hchange), Hout, Hc64, Hd64 in Hmake.
  cbn [andb fst] in Hmake. injection Hmake as <-.
  exists s. eexists.
  split; [exact Hs|].
  split; [apply ReceiverFacts.recv_first; [reflexivity | exact Hnone]|].
  split; [reflexivity|].
  split.
  { eapply FinalizationFacts.make_finalization_tx_returns with (rest := []);
      [reflexivity | reflexivity |].
    unfold serializable, serializable_txin, serializable_txout.
    cbn [nVersion vin vout nLockTime forallb prevout nSequence nValue].
    rewrite Hout, Hc64, Hd64. reflexivity. }
  repeat split.
Qed.

(** X8.  Both sides agree on the total.  From a fresh sender and a fresh
    receiver, after any sequence of [send_payment] calls (of which some
    may raise) each of whose results is handed to [recv_payment_tx], the
    sender's [total_sent] and the receiver's are defined and equal. *)
Theorem relay_totals_agree (params : MicropaymentParams.t)
    (sender_seckey receiver_seckey : bytes) (change : CScript)
    (deposit : Z) (calls : list Calls.call) :
  let sides :=
    Calls.relay calls
      (SenderMicropaymentChannel.init params sender_seckey change deposit,
       ReceiverMicropaymentChannel.init params receiver_seckey deposit) in
  exists s,
    total_sent (fst sides) = Ok s /\
    total_sent (snd sides) = Ok s.
Proof.
  cbv zeta.
  set (start := (SenderMicropaymentChannel.init params sender_seckey change
                   deposit,
                 ReceiverMicropaymentChannel.init params receiver_seckey
                   deposit)).
  assert (Hstart : exists s, total_sent (fst start) = Ok s /\
                             total_sent (snd start) = Ok s)
    by (exists 0; split; reflexivity).
  clearbody start. revert start Hstart.
  induction calls as [|c calls IH]; intros sides Hinv; [exact Hinv|].
  cbn [Calls.relay fold_left]. apply IH. clear IH.
  destruct sides as [send_side recv_side].
  destruct Hinv as (s & Hs & Hr). cbn [fst snd] in Hs, Hr.
  unfold Calls.relay_step. cbn [fst snd].
  rewrite SenderFacts.send_payment_unfold.
  destruct (fst (SenderMicropaymentChannel.make_payment_tx
                   (Calls.amount c) (Calls.fee c) (Calls.nonce c) send_side))
    as [tx|e] eqn:Hmake; cbn [fst snd]; [|exists s; split; assumption].
  destruct (SenderFacts.make_payment_tx_inv send_side _ _ _ tx Hmake)
    as (s0 & sig & Hs0 & Hd & _ & -> & _).
  rewrite Hs in Hs0. injection Hs0 as <-.
  exists (s + Calls.amount c). split; [reflexivity|].
  unfold total_sent in Hr.
  destruct (last_payment_tx recv_side) as [last|] eqn:Hlast.
  - match goal with
    | |- context [recv_payment_tx ?t recv_side] =>
        rewrite (ReceiverFacts.recv_next t last (s + Calls.amount c) s
                   recv_side eq_refl Hlast Hr)
    end.
    cbn [snd]. replace (s + Calls.amount c - s) with (Calls.amount c) by lia.
    destruct (0 <? Calls.amount c) eqn:Hpos; [reflexivity|].
    apply Z.ltb_ge in Hpos. unfold total_sent. rewrite Hlast, Hr.
    f_equal. lia.
  - injection Hr as <-.
    match goal with
    | |- context [recv_payment_tx ?t recv_side] =>
        rewrite (ReceiverFacts.recv_first t (0 + Calls.amount c) recv_side
                   eq_refl Hlast)
    end.
    reflexivity.
Qed.

End WithSigning.

Lemma payment_received_and_finalized_witness :
  (exists tx,
     fst (SenderMicropaymentChannel.send_payment 5000000 100000
            Demo.nonce1 Demo.send_side) = Ok tx /\
     exists final,
       fst (ReceiverMicropaymentChannel.make_finalization_tx Demo.nonce2
              (ReceiverMicropaymentChannel.storing tx Demo.recv_side))
         = Ok final /\
       calc_payment_value final = Ok 5000000 /\
       (exists txin, vin final = [txin] /\
                     length (scriptSig txin) = 4%nat)) /\
  last_payment_tx Demo.recv_side = None.
Proof.
  split; [|reflexivity].
  eexists. split; [reflexivity|].
  destruct (payment_received_and_finalized Demo.send_side Demo.recv_side
              5000000 100000 Demo.nonce1 Demo.nonce2 _ eq_refl eq_refl)
    as (s & final & Hs & _ & _ & Hfinal & _ & Hvalue & _ & Hvin).
  injection Hs as <-.
  exists final. split; [rewrite Hfinal; reflexivity|].
  split; [exact Hvalue|].
  eexists. split; [exact Hvin | reflexivity].
Defined.

End ChannelFlow.

(** ** The sender's payments and refund *)
Module SenderProperties.
Import MicropaymentChannel SenderMicropaymentChannel SenderFacts.

Lemma amounts_nonneg (calls : list Calls.call) :
  Forall (fun c => 0 <= Calls.amount c) calls -> 0 <= Calls.amounts calls.
Proof.
  induction 1 as [|c calls Hc _ IH]; cbn; [lia|].
  unfold Calls.amounts in IH. lia.
Qed.

(** A value between 0 and an int64 value is an int64 value. *)
Lemma is_int64_between (x bound : Z) :
  0 <= x <= bound -> is_int64 bound = true -> is_int64 x = true.
Proof.
  unfold is_int64. intros Hx Hb.
  apply andb_true_iff in Hb as [_ Hhi]. apply Z.leb_le in Hhi.
  apply andb_true_iff. split; apply Z.leb_le; lia.
Qed.

Section WithSigning.
Context `{SigningService}.

(** X9.  Payments within the budget all go through.  Take a sender
    whose deposit fits the serialized format's 64-bit values and whose
    deposit outpoint has a 32-bit index, with a total sent [s >= 0].
    If every amount and every fee of a sequence of [send_payment] calls
    is non-negative and [s], plus all the amounts, plus the fee of any
    one call stays within the deposit, then after the sequence
    [total_sent] is [s] plus the sum of the amounts. *)
Theorem send_all_within_budget (calls : list Calls.call) (self : t) (s : Z)
    (Hs : total_sent self = Ok s)
    (Hnonneg : 0 <= s)
    (Hout : is_uint32
              (op_n (MicropaymentParams.deposit_outpoint (params self)))
            = true)
    (Hdeposit : is_int64 (deposit_nValue self) = true)
    (Hamounts : Forall (fun c => 0 <= Calls.amount c) calls)
    (Hfees : Forall (fun c => 0 <= Calls.fee c) calls)
    (Hbudget : forall c, In c calls ->
                 s + Calls.amounts calls + Calls.fee c
                   <= deposit_nValue self) :
  total_sent (Calls.send_all calls self) = Ok (s + Calls.amounts calls).
Proof.
  revert self s Hs Hnonneg Hout Hdeposit Hfees Hbudget.
  induction Hamounts as [|c calls Hd Hrest IH];
    intros self s Hs Hnonneg Hout Hdeposit Hfees Hbudget.
  - cbn. rewrite Hs. f_equal. lia.
  - pose proof (amounts_nonneg calls Hrest) as Hnn.
    assert (Hsum : Calls.amounts (c :: calls)
                   = Calls.amount c + Calls.amounts calls) by reflexivity.
    pose proof (Hbudget c (or_introl eq_refl)) as Hthis.
    rewrite Hsum in Hthis.
    inversion Hfees as [|c' calls' Hf Hfrest]; subst c' calls'.
    assert (Hchange : 0 <= deposit_nValue self - s - Calls.amount c
                           - Calls.fee c) by lia.
    pose proof (make_payment_tx_funded self (Calls.amount c) (Calls.fee c) s
                  (Calls.nonce c) Hs Hd Hchange) as Hmake.
    rewrite Hout in Hmake.
    rewrite (is_int64_between
               (deposit_nValue self - s - Calls.amount c - Calls.fee c)
               (deposit_nValue self)) in Hmake by (assumption || lia).
    rewrite (is_int64_between (s + Calls.amount c) (deposit_nValue self))
      in Hmake by (assumption || lia).
    cbn [andb] in Hmake.
    cbn [Calls.send_all fold_left].
    rewrite send_payment_unfold, Hmake. cbn [fst snd].
    match goal with
    | |- context [storing ?t self] => set (tx := t)
    end.
    assert (Hnext : total_sent (storing tx self) = Ok (s + Calls.amount c))
      by reflexivity.
    assert (Hbudget' : forall c', In c' calls ->
               s + Calls.amount c + Calls.amounts calls + Calls.fee c'
                 <= deposit_nValue (storing tx self)).
    { intros c' Hin. pose proof (Hbudget c' (or_intror Hin)) as Hc.
      rewrite Hsum in Hc. cbn. lia. }
    assert (Hnonneg' : 0 <= s + Calls.amount c) by lia.
    pose proof (IH (storing tx self) (s + Calls.amount c) Hnext Hnonneg'
                  Hout Hdeposit Hfrest Hbudget') as Hfinal.
    unfold Calls.send_all in Hfinal. rewrite Hfinal, Hsum. f_equal. lia.
Qed.

(** X10.  What a payment transaction spends.  Its two outputs add up to
    the deposit minus the fee.  If the total sent so far is not
    negative, neither output is negative; with a fee that is not
    negative each output is at most the deposit; but the fee's sign is
    not checked, and with a negative fee the outputs add up to more than
    the deposit. *)
Theorem payment_outputs_within_deposit (self : t) (d f s : Z)
    (nonce : bytes) (tx : CTransaction)
    (Hmake : fst (make_payment_tx d f nonce self) = Ok tx)
    (Hs : total_sent self = Ok s)
    (Hnonneg : 0 <= s) :
  exists change_out dest_out,
    vout tx = [change_out; dest_out] /\
    nValue change_out + nValue dest_out = deposit_nValue self - f /\
    0 <= nValue change_out /\
    0 <= nValue dest_out /\
    (0 <= f -> nValue change_out <= deposit_nValue self /\
               nValue dest_out <= deposit_nValue self) /\
    (f < 0 -> deposit_nValue self < nValue change_out + nValue dest_out).
Proof.
  destruct (make_payment_tx_inv self d f nonce tx Hmake)
    as (s0 & sig & Hs0 & Hd & Hchange & -> & _).
  rewrite Hs in Hs0. injection Hs0 as <-.
  eexists _, _. split; [reflexivity|]. cbn [nValue].
  repeat split; lia.
Qed.

(** X11.  What the payment's signature covers.  The single input of a
    transaction returned by [make_payment_tx] carries one item: the
    sender's signature, with the hash-type byte 0x81
    (ALL|ANYONECANPAY) appended, over the digest of that same
    transaction with the input's script emptied, for input 0 and the
    deposit script. *)
Theorem payment_signature_covers_tx (self : t) (d f : Z) (nonce : bytes)
    (tx : CTransaction)
    (Hmake : fst (make_payment_tx d f nonce self) = Ok tx) :
  exists txin,
    vin tx = [txin] /\
    scriptSig txin =
      [SData
         (ecdsa_sign (sender_seckey self)
            (sighash_digest
               (MicropaymentParams.deposit_redeemScript (params self))
               (mkCTransaction
                  [mkCTxIn (prevout txin) [] (nSequence txin)]
                  (vout tx) (nLockTime tx) (nVersion tx))
               0 0x81)
            nonce
          ++ [x81])].
Proof.
  destruct (make_payment_tx_inv self d f nonce tx Hmake)
    as (s & sig & Hs & Hd & Hchange & _ & Hout & Hc64 & Hd64).
  rewrite (make_payment_tx_funded self d f s nonce Hs Hd Hchange),
    Hout, Hc64, Hd64 in Hmake.
  cbn [andb fst] in Hmake. injection Hmake as <-.
  eexists. split; reflexivity.
Qed.

(** X12.  What the refund's signature covers.  With the deposit
    outpoint's index, the expiry lock-time and [deposit_nValue - fee]
    within the ranges of the serialized format, the refund transaction
    is returned and its input carries three items: the sender's
    signature, with the hash-type byte 0x01 (ALL) appended, over the
    digest of the refund transaction itself with the input's script
    emptied; the selector 0; and the deposit script. *)
Theorem refund_signature_covers_tx (self : t) (fee : Z) (nonce : bytes)
    (Hout : is_uint32
              (op_n (MicropaymentParams.deposit_outpoint (params self)))
            = true)
    (Hexpiry : is_uint32 (MicropaymentParams.expiry_nlocktime (params self))
               = true)
    (Hvalue : is_int64 (deposit_nValue self - fee) = true) :
  exists tx txin,
    fst (make_refund_tx fee nonce self) = Ok tx /\
    vin tx = [txin] /\
    scriptSig txin =
      [SData
         (ecdsa_sign (sender_seckey self)
            (sighash_digest
               (MicropaymentParams.deposit_redeemScript (params self))
               (mkCTransaction
                  [mkCTxIn (prevout txin) [] (nSequence txin)]
                  (vout tx) (nLockTime tx) (nVersion tx))
               0 1)
            nonce
          ++ [x01]);
       SInt 0;
       SScript (MicropaymentParams.deposit_redeemScript (params self))].
Proof.
  rewrite (make_refund_tx_returns self fee nonce Hout Hexpiry Hvalue).
  eexists _, _. split; [reflexivity|]. split; reflexivity.
Qed.

(** X13.  The refund takes back what a payment hands out.  When a
    payment transaction is returned and the expiry lock-time and
    [deposit_nValue - fee] are within the ranges of the serialized
    format, the refund transaction made by the same sender with the
    same fee is returned too; both spend the same outpoint, and the
    refund's single output, paid to the script of the payment's change
    output, is worth the payment's two outputs together. *)
Theorem refund_reclaims_payment (self : t) (d fee : Z)
    (nonce nonce' : bytes) (tx : CTransaction)
    (Hmake : fst (make_payment_tx d fee nonce self) = Ok tx)
    (Hexpiry : is_uint32 (MicropaymentParams.expiry_nlocktime (params self))
               = true)
    (Hvalue : is_int64 (deposit_nValue self - fee) = true) :
  exists refund_tx change_out dest_out refund_out,
    fst (make_refund_tx fee nonce' self) = Ok refund_tx /\
    map prevout (vin refund_tx) = map prevout (vin tx) /\
    vout tx = [change_out; dest_out] /\
    vout refund_tx = [refund_out] /\
    nValue refund_out = nValue change_out + nValue dest_out /\
    scriptPubKey refund_out = scriptPubKey change_out.
Proof.
  destruct (make_payment_tx_inv self d fee nonce tx Hmake)
    as (s & sig & _ & _ & _ & -> & Hout & _).
  rewrite (make_refund_tx_returns self fee nonce' Hout Hexpiry Hvalue).
  eexists _, _, _, _. split; [reflexivity|].
  do 3 (split; [reflexivity|]).
  split; [cbn; lia | reflexivity].
Qed.

(** X14.  Funds do not come back.  Once [make_payment_tx d f] has
    raised for lack of funds, it raises for lack of funds after any
    further sequence of [send_payment] calls as well. *)
Theorem insufficient_funds_persist (self : t) (d f : Z)
    (nonce nonce' : bytes) (calls : list Calls.call)
    (Hfail : fst (make_payment_tx d f nonce self) = Raise InsufficientFunds) :
  fst (make_payment_tx d f nonce' (Calls.send_all calls self))
    = Raise InsufficientFunds.
Proof.
  destruct (Z.lt_ge_cases d 0) as [Hneg|Hd].
  { rewrite make_payment_tx_negative in Hfail by assumption.
    discriminate Hfail. }
  destruct (total_sent self) as [s|e] eqn:Hs.
  2:{ rewrite (make_payment_tx_undefined_total self d f nonce e) in Hfail
        by assumption.
      rewrite (total_sent_raises self e Hs) in Hfail.
      discriminate Hfail. }
  destruct (Z.lt_ge_cases (deposit_nValue self - s - d - f) 0)
    as [Hlow|Hchange].
  2:{ rewrite (make_payment_tx_funded self d f s nonce Hs Hd Hchange)
        in Hfail.
      cbn [fst] in Hfail.
      destruct (_ && _) in Hfail; discriminate Hfail. }
  destruct (send_all_total_sent calls self s Hs) as (s' & Hs' & Hle).
  destruct (send_all_frame calls self) as (_ & Hdep & _).
  rewrite (make_payment_tx_insufficient _ d f s' nonce' Hs' Hd);
    [reflexivity|].
  rewrite Hdep. lia.
Qed.

End WithSigning.

(** The two payments of the test run fit the deposit. *)
Lemma send_all_within_budget_witness :
  total_sent Demo.send_side = Ok 0 /\
  0 <= 0 /\
  is_uint32 (op_n Demo.deposit_outpoint) = true /\
  is_int64 (deposit_nValue Demo.send_side) = true /\
  Forall (fun c => 0 <= Calls.amount c)
    [Calls.mkcall 5000000 100000 Demo.nonce1;
     Calls.mkcall 1 100000 Demo.nonce2] /\
  Forall (fun c => 0 <= Calls.fee c)
    [Calls.mkcall 5000000 100000 Demo.nonce1;
     Calls.mkcall 1 100000 Demo.nonce2] /\
  (forall c, In c [Calls.mkcall 5000000 100000 Demo.nonce1;
                   Calls.mkcall 1 100000 Demo.nonce2] ->
     0 + Calls.amounts [Calls.mkcall 5000000 100000 Demo.nonce1;
                        Calls.mkcall 1 100000 Demo.nonce2] + Calls.fee c
       <= deposit_nValue Demo.send_side) /\
  total_sent
    (Calls.send_all [Calls.mkcall 5000000 100000 Demo.nonce1;
                     Calls.mkcall 1 100000 Demo.nonce2] Demo.send_side)
    = Ok (0 + Calls.amounts [Calls.mkcall 5000000 100000 Demo.nonce1;
                             Calls.mkcall 1 100000 Demo.nonce2]).
Proof.
  assert (Hs : total_sent Demo.send_side = Ok 0) by reflexivity.
  assert (H0 : 0 <= 0) by lia.
  assert (Ha : Forall (fun c => 0 <= Calls.amount c)
                 [Calls.mkcall 5000000 100000 Demo.nonce1;
                  Calls.mkcall 1 100000 Demo.nonce2])
    by (repeat constructor; cbn; lia).
  assert (Hf : Forall (fun c => 0 <= Calls.fee c)
                 [Calls.mkcall 5000000 100000 Demo.nonce1;
                  Calls.mkcall 1 100000 Demo.nonce2])
    by (repeat constructor; cbn; lia).
  assert (Hb : forall c, In c [Calls.mkcall 5000000 100000 Demo.nonce1;
                               Calls.mkcall 1 100000 Demo.nonce2] ->
             0 + Calls.amounts [Calls.mkcall 5000000 100000 Demo.nonce1;
                                Calls.mkcall 1 100000 Demo.nonce2]
               + Calls.fee c
               <= deposit_nValue Demo.send_side).
  { intros c [<- | [<- | []]];
      change (0 + 5000001 + 100000 <= 10000000); lia. }
  split; [exact Hs | split; [exact H0|]].
  split; [reflexivity | split; [reflexivity|]].
  split; [exact Ha | split; [exact Hf | split; [exact Hb|]]].
  exact (send_all_within_budget _ Demo.send_side 0 Hs H0 eq_refl eq_refl
           Ha Hf Hb).
Defined.

Lemma payment_outputs_within_deposit_witness :
  total_sent Demo.send_side = Ok 0 /\
  0 <= 0 /\
  exists tx change_out dest_out,
    fst (make_payment_tx 1 100000 Demo.nonce1 Demo.send_side) = Ok tx /\
    vout tx = [change_out; dest_out] /\
    nValue change_out + nValue dest_out
      = deposit_nValue Demo.send_side - 100000.
Proof.
  split; [reflexivity | split; [lia|]].
  eexists.
  destruct (payment_outputs_within_deposit Demo.send_side 1 100000 0
              Demo.nonce1 _ eq_refl eq_refl (Z.le_refl 0))
    as (change_out & dest_out & Hvout & Hsum & _).
  exists change_out, dest_out.
  split; [reflexivity | split; [exact Hvout | exact Hsum]].
Defined.

Lemma payment_signature_covers_tx_witness :
  exists tx txin,
    fst (make_payment_tx 1 100000 Demo.nonce1 Demo.send_side) = Ok tx /\
    vin tx = [txin] /\
    length (scriptSig txin) = 1%nat.
Proof.
  eexists.
  destruct (payment_signature_covers_tx Demo.send_side 1 100000 Demo.nonce1
              _ eq_refl) as (txin & Hvin & Hsig).
  exists txin. split; [reflexivity | split; [exact Hvin|]].
  rewrite Hsig. reflexivity.
Defined.

Lemma refund_signature_covers_tx_witness :
  is_uint32 (op_n Demo.deposit_outpoint) = true /\
  is_uint32 1000000000 = true /\
  is_int64 (10000000 - 100000) = true /\
  exists tx txin,
    fst (make_refund_tx 100000 Demo.nonce1 Demo.send_side) = Ok tx /\
    vin tx = [txin] /\
    length (scriptSig txin) = 3%nat.
Proof.
  split; [reflexivity | split; [reflexivity | split; [reflexivity|]]].
  destruct (refund_signature_covers_tx Demo.send_side 100000 Demo.nonce1
              eq_refl eq_refl eq_refl) as (tx & txin & Htx & Hvin & Hsig).
  exists tx, txin. split; [exact Htx | split; [exact Hvin|]].
  rewrite Hsig. reflexivity.
Defined.

Lemma refund_reclaims_payment_witness :
  is_uint32 1000000000 = true /\
  is_int64 (10000000 - 100000) = true /\
  exists tx refund_tx,
    fst (make_payment_tx 1 100000 Demo.nonce1 Demo.send_side) = Ok tx /\
    fst (make_refund_tx 100000 Demo.nonce2 Demo.send_side) = Ok refund_tx /\
    map prevout (vin refund_tx) = map prevout (vin tx).
Proof.
  split; [reflexivity | split; [reflexivity|]].
  eexists.
  destruct (refund_reclaims_payment Demo.send_side 1 100000
              Demo.nonce1 Demo.nonce2 _ eq_refl eq_refl eq_refl)
    as (refund_tx & _ & _ & _ & Hrefund & Hprev & _).
  exists refund_tx. split; [reflexivity | split; [exact Hrefund | exact Hprev]].
Defined.

Lemma insufficient_funds_persist_witness :
  fst (make_payment_tx 5000000 100000 Demo.nonce1 Demo.send_side)
    <> Raise InsufficientFunds /\
  fst (make_payment_tx 9900001 100000 Demo.nonce1 Demo.send_side)
    = Raise InsufficientFunds /\
  fst (make_payment_tx 9900001 100000 Demo.nonce2
         (Calls.send_all [Calls.mkcall 5000000 100000 Demo.nonce1]
            Demo.send_side))
    = Raise InsufficientFunds.
Proof.
  split; [discriminate | split; [reflexivity|]].
  exact (insufficient_funds_persist Demo.send_side 9900001 100000
           Demo.nonce1 Demo.nonce2
           [Calls.mkcall 5000000 100000 Demo.nonce1] eq_refl).
Defined.

End SenderProperties.

(** ** hodl: what [spend_command] signs and charges *)
Module HodlProperties.
Import Hodl.

Lemma lookup_enumerated {A B : Type} (g : nat * A -> B) (xs : list A) :
  forall (k i : nat) (y : B),
    map g (combine (seq k (length xs)) xs) !! i = Some y ->
    exists x, xs !! i = Some x /\ y = g ((k + i)%nat, x).
Proof.
  induction xs as [|x xs IH]; intros k i y Hy; [destruct i; discriminate Hy|].
  destruct i as [|i]; cbn in Hy.
  - injection Hy as <-. exists x. rewrite Nat.add_0_r. split; reflexivity.
  - destruct (IH (S k) i y Hy) as (x' & Hx' & ->).
    exists x'. split; [exact Hx'|]. f_equal. f_equal. lia.
Qed.

(** Emptying the scripts of inputs that were made from unsigned inputs
    gives the unsigned inputs back. *)
Lemma strip_enumerated (sc : nat * CTxIn -> CScript) (txins : list CTxIn) :
  Forall (fun t => scriptSig t = [] /\ nSequence t = 0) txins ->
  forall k : nat,
    map (fun t => mkCTxIn (prevout t) [] 0)
      (map (fun it : nat * CTxIn => mkCTxIn (prevout (snd it)) (sc it) 0)
         (combine (seq k (length txins)) txins))
    = txins.
Proof.
  induction 1 as [|t txins [Hsig Hseq] _ IH]; intros k; [reflexivity|].
  cbn [length seq combine map snd prevout]. rewrite (IH (S k)).
  destruct t as [o sg sq]. cbn in Hsig, Hseq. subst. reflexivity.
Qed.

Lemma unsigned_inputs_empty (prevouts : list (COutPoint * CTxOut)) :
  Forall (fun t => scriptSig t = [] /\ nSequence t = 0)
    (map (fun p : COutPoint * CTxOut => mkCTxIn (fst p) [] 0) prevouts).
Proof.
  induction prevouts as [|p ps IH]; cbn [map]; constructor;
    [split; reflexivity | exact IH].
Qed.

Lemma fees_at_floor (n : nat) (feerate : Z) :
  feerate <= 0 -> fees n feerate = fees n 0.
Proof.
  intros Hle. unfold fees.
  rewrite (HodlFacts.effective_feerate_floor feerate Hle).
  reflexivity.
Qed.

Section WithSigning.
Context `{SigningService}.

(** X15.  The transaction [spend_command] prints.  Once the fee is
    computed, and with the lock-time, the outpoint indexes and the
    output value within the ranges of the serialized format, the
    command returns a transaction that spends the given outpoints in
    their order, each with sequence number 0; pays the sum of their
    values minus the fee, in a single output, to the destination
    script, whether or not the inputs cover the fee; and carries the
    given lock-time.  Input [i] holds two items: the key's signature,
    with the hash-type byte 0x01 appended, over the digest for input
    [i] of the transaction with all input scripts emptied, and the hodl
    script. *)
Theorem spend_command_signs_every_input (privkey : bytes) (lock : Z)
    (prevouts : list (COutPoint * CTxOut)) (feerate : Z)
    (addr_scriptPubKey : CScript) (nonces : nat -> bytes) (fee : Z)
    (Hfee : fees (length prevouts) feerate = Ok fee)
    (Hlock : is_uint32 lock = true)
    (Hprev : forallb (fun p : COutPoint * CTxOut =>
                        is_uint32 (op_n (fst p))) prevouts = true)
    (Hvalue : is_int64 (sum_in prevouts - fee) = true) :
  exists tx,
    spend_command privkey lock prevouts feerate addr_scriptPubKey nonces
      = Ok tx /\
    map prevout (vin tx) = map fst prevouts /\
    Forall (fun txin => nSequence txin = 0) (vin tx) /\
    vout tx = [mkCTxOut (sum_in prevouts - fee) addr_scriptPubKey] /\
    bitcoin.nLockTime tx = lock /\
    (forall (i : nat) (txin : CTxIn),
       vin tx !! i = Some txin ->
       scriptSig txin =
         [SData
            (ecdsa_sign privkey
               (sighash_digest (hodl_redeemScript privkey lock)
                  (mkCTransaction
                     (map (fun t => mkCTxIn (prevout t) [] 0) (vin tx))
                     (vout tx) (bitcoin.nLockTime tx) 1)
                  i SIGHASH_ALL)
               (nonces i)
             ++ [x01]);
          SScript (hodl_redeemScript privkey lock)]).
Proof.
  pose proof (HodlFacts.spend_command_returns privkey lock prevouts feerate
                addr_scriptPubKey nonces fee Hfee Hlock Hprev Hvalue)
    as Hcmd.
  cbv zeta in Hcmd. eexists. split; [exact Hcmd|].
  cbn [vin vout bitcoin.nLockTime]. unfold enumerate.
  set (unsigned_vin :=
         map (fun p : COutPoint * CTxOut => mkCTxIn (fst p) [] 0) prevouts).
  split.
  { rewrite map_map. cbn [prevout snd].
    subst unsigned_vin. clear.
    generalize 0%nat.
    induction prevouts as [|p ps IH]; intros k; [reflexivity|].
    cbn [map length seq combine snd prevout fst]. f_equal. apply IH. }
  split.
  { apply Forall_forall. intros txin Hin.
    apply list_elem_of_In, in_map_iff in Hin as (it & <- & _).
    reflexivity. }
  split; [reflexivity|]. split; [reflexivity|].
  rewrite (strip_enumerated _ unsigned_vin
             (unsigned_inputs_empty prevouts) 0%nat).
  intros i txin Hi.
  destruct (lookup_enumerated _ _ 0%nat i txin Hi) as (t & _ & ->).
  reflexivity.
Qed.

End WithSigning.

Lemma spend_command_signs_every_input_witness :
  fees (length Demo.hodl_prevouts) (-100000000) = Ok 12689 /\
  is_uint32 500000 = true /\
  forallb (fun p : COutPoint * CTxOut => is_uint32 (op_n (fst p)))
    Demo.hodl_prevouts = true /\
  is_int64 (sum_in Demo.hodl_prevouts - 12689) = true /\
  exists tx,
    spend_command Demo.sender_seckey 500000 Demo.hodl_prevouts
                  (-100000000) Demo.receiver_dest_scriptPubKey
                  (fun _ => Demo.nonce1) = Ok tx /\
    length (vin tx) = 8%nat /\
    map nValue (vout tx) = [787311].
Proof.
  assert (Hfee : fees (length Demo.hodl_prevouts) (-100000000) = Ok 12689)
    by (vm_compute; reflexivity).
  assert (Hlock : is_uint32 500000 = true) by reflexivity.
  assert (Hprev : forallb (fun p : COutPoint * CTxOut =>
                             is_uint32 (op_n (fst p)))
                    Demo.hodl_prevouts = true) by reflexivity.
  assert (Hval : is_int64 (sum_in Demo.hodl_prevouts - 12689) = true)
    by reflexivity.
  split; [exact Hfee | split; [exact Hlock | split; [exact Hprev|]]].
  split; [exact Hval|].
  destruct (spend_command_signs_every_input Demo.sender_seckey 500000
              Demo.hodl_prevouts (-100000000)
              Demo.receiver_dest_scriptPubKey (fun _ => Demo.nonce1)
              12689 Hfee Hlock Hprev Hval)
    as (tx & Hcmd & Hprevs & _ & Hvout & _).
  exists tx. split; [exact Hcmd | split].
  - rewrite <- (length_map prevout), Hprevs. reflexivity.
  - rewrite Hvout. reflexivity.
Defined.

(** X16.  The fee when the node has no estimate.  With a rate that is
    not positive and between 1 and 1000 inputs, the fee computed is
    defined and is ten times the size, which is the exact value of
    size/1000 * 10000, or one less; it is never more. *)
Theorem floor_rate_fee_within_one (n : nat) (feerate : Z)
    (Hn : (1 <= n <= 1000)%nat)
    (Hrate : feerate <= 0) :
  exists fee,
    fees n feerate = Ok fee /\
    (fee = 10 * tx_size n \/ fee = 10 * tx_size n - 1).
Proof.
  rewrite (fees_at_floor n feerate Hrate).
  assert (Hall :
            forallb
              (fun k =>
                 match fees k 0 with
                 | Ok fee =>
                     (fee =? 10 * tx_size k) || (fee =? 10 * tx_size k - 1)
                 | Raise _ => false
                 end)
              (seq 1 1000) = true)
    by (vm_compute; reflexivity).
  rewrite forallb_forall in Hall.
  assert (Hin : In n (seq 1 1000)) by (apply in_seq; lia).
  specialize (Hall n Hin).
  destruct (fees n 0) as [fee|e]; [|discriminate Hall].
  exists fee. split; [reflexivity|].
  apply orb_true_iff in Hall. destruct Hall as [Heq | Heq];
    apply Z.eqb_eq in Heq; [left | right]; exact Heq.
Qed.

Lemma floor_rate_fee_within_one_witness :
  (1 <= 8 <= 1000)%nat /\
  -100000000 <= 0 /\
  exists fee,
    fees 8 (-100000000) = Ok fee /\
    (fee = 10 * tx_size 8 \/ fee = 10 * tx_size 8 - 1).
Proof.
  assert (Hn : (1 <= 8 <= 1000)%nat) by lia.
  assert (Hr : -100000000 <= 0) by lia.
  split; [exact Hn | split; [exact Hr|]].
  exact (floor_rate_fee_within_one 8 (-100000000) Hn Hr).
Defined.

End HodlProperties.
